(** * KML_to_mask: geodetic polygons to tile-aligned masks

    A shallow embedding of [KML_to_mask.py] (projection math, tile centre
    solver, rasteriser, the two deduplication passes and the tile-polygon
    assignment) together with the name resolution that [main.py] relies on.

    Numbers.  Python floats are read as exact rationals ([Q]); every
    operation keeps its Python meaning except rounding, which is not
    modelled.  Equalities between computed numbers are therefore stated
    with [==] and hold in the source up to binary64 rounding.  The
    arguments of the functions are taken to be Python floats, whose
    division by zero raises; where the source divides numpy scalars, whose
    division by zero yields [inf] or [nan], the model says so
    ([np_truediv]).

    Library functions.  [math.cos]/[np.cos], [math.tan] and [math.log]
    belong to libm, and [cv2.drawContours] to OpenCV; none of them is part
    of the repository.  They are Section variables, so every theorem below
    holds whatever these functions compute.  Closed instances are evaluated
    with the rational stand-ins of Module [Standin]. *)

From Stdlib Require Import ZArith QArith Qround Qabs Qpower Qminmax Lia Lqa.
From Stdlib Require Import String Ascii List DecimalString.
From Stdlib Require DecimalZ DecimalFacts.
From stdpp Require Import gmap strings list.

Import ListNotations.
Local Open Scope Z_scope.
Local Open Scope Q_scope.

(** ** Python run-time model *)

Module Py.

(** The exceptions that the modelled code can raise. *)
Inductive exn : Type :=
| ZeroDivisionError
| ValueError
| IndexError
| TypeError
| FileNotFoundError
| NameError (name : string).

(** A call either returns a value or propagates an exception. *)
Inductive result (A : Type) : Type :=
| Ok (a : A)
| Raise (e : exn).
Arguments Ok {A} a.
Arguments Raise {A} e.

Definition bind {A B} (r : result A) (k : A -> result B) : result B :=
  match r with
  | Ok a => k a
  | Raise e => Raise e
  end.

(** [a / b] on Python floats: a zero divisor raises. *)
Definition div (a b : Q) : result Q :=
  if Qeq_bool b 0 then Raise ZeroDivisionError else Ok (a / b).

(** [a // 1] on a float: the floor, still a float. *)
Definition floordiv1 (a : Q) : Q := inject_Z (Qfloor a).

(** [math.pi], the binary64 constant [0x400921FB54442D18]. *)
Definition pi : Q := 884279719003555 # 281474976710656.

(** A [for] loop over a list whose body may raise: the accumulator is
    threaded left to right and the first exception ends the loop. *)
Fixpoint for_each {A B} (body : A -> B -> result A) (acc : A) (l : list B)
  : result A :=
  match l with
  | [] => Ok acc
  | x :: l =>
      match body acc x with
      | Ok acc => for_each body acc l
      | Raise e => Raise e
      end
  end.

(** Values bound to module-level names. *)
Inductive value : Type :=
| Int (z : Z)
| Float (q : Q)
| Str (s : string)
| Function
| Module_.

(** Reading a global that is expected to hold an integer: the name is
    looked up in the globals of the module that defines the running
    function. *)
Definition global_int (G : gmap string value) (x : string) : result Z :=
  match G !! x with
  | None => Raise (NameError x)
  | Some (Int z) => Ok z
  | Some _ => Raise TypeError
  end.

End Py.

Import Py.

(** Sequencing of calls that may raise, in stdpp's monad notation
    [x ← c; k]. *)
#[global] Instance result_ret : MRet result := @Ok.
#[global] Instance result_bind : MBind result := fun A B k r => Py.bind r k.

(** A loop that the model runs for at most [fuel] iterations ends in one of
    three ways; [Running] means that the source is still iterating. *)
Inductive outcome (A : Type) : Type :=
| Returned (a : A)
| Raised (e : exn)
| Running.
Arguments Returned {A} a.
Arguments Raised {A} e.
Arguments Running {A}.

(** ** The pipeline of [KML_to_mask.py] *)

(** A polygon is what [get_polygon_coords] extracts from a placemark: the
    rows [[long, lat]] of its coordinate array. *)
Abbreviation polygon := (list (Q * Q)) (only parsing).

(** A mask: the rows of a two-dimensional array of pixel values. *)
Abbreviation mask := (list (list Z)) (only parsing).

Section Pipeline.

(** libm: [cos] stands for both [math.cos] and [np.cos]. *)
Variables cos tan log : Q -> Q.

(** [math.log] rejects non-positive arguments. *)
Definition math_log (x : Q) : result Q :=
  if Qle_bool x 0 then Raise ValueError else Ok (log x).

Definition calc_c_zoom (zoom : Z) : Q := 360 / 2 ^ (zoom - 1)%Z.

Definition angle_lat (lat : Q) : Q := lat * Py.pi / 180.

Definition long_degrees_per_pixel (zoom : Z) (long : Q) : Q :=
  calc_c_zoom zoom / 512.

Definition lat_degrees_per_pixel (zoom : Z) (lat : Q) : Q :=
  let lat_angle := angle_lat lat in
  calc_c_zoom zoom / 512 * cos lat_angle.

Definition long_degrees_per_img (zoom : Z) (long : Q) (size : Z) : Q :=
  long_degrees_per_pixel zoom long * inject_Z size.

Definition lat_degrees_per_img (zoom : Z) (lat : Q) (size : Z) : Q :=
  lat_degrees_per_pixel zoom lat * inject_Z size.

Definition norm_lat (lat : Q) : result Q :=
  let lat_angle := angle_lat lat in
  sec ← Py.div 1 (cos lat_angle);
  l ← math_log (sec + tan lat_angle);
  Ok (180 / Py.pi * l).

(** The tolerance [10 ** -9]. *)
Definition tolerance : Q := 1 # 1000000000.

(** One execution of the body of the [while] loop of
    [get_exact_map_lat]: the new [lat] and the new [diff]. *)
Definition lat_body (C_zoom n_map_lat_int lat diff : Q) : result (Q * Q) :=
  a ← Py.div diff n_map_lat_int;
  b ← Py.div (a * cos (angle_lat lat)) lat;
  nl ← norm_lat lat;
  let ratio := b * nl in
  let lat := lat * (1 - ratio) in
  nl ← norm_lat lat;
  n_map_lat ← Py.div nl C_zoom;
  Ok (lat, n_map_lat - n_map_lat_int).

(** The [while abs(diff) > 10 ** -9] loop, cut after [fuel] iterations.
    The source has no counter: [fuel] belongs to the model only. *)
Fixpoint lat_loop (fuel : nat) (C_zoom n_map_lat_int lat diff : Q)
  : outcome Q :=
  if Qle_bool (Qabs diff) tolerance then Returned lat
  else
    match fuel with
    | O => Running
    | S fuel =>
        match lat_body C_zoom n_map_lat_int lat diff with
        | Raise e => Raised e
        | Ok (lat, diff) => lat_loop fuel C_zoom n_map_lat_int lat diff
        end
    end.



(** What precedes the loop: [C_zoom], [n_map_lat_int] and the first
    [diff]. *)
Definition lat_init (lat : Q) (zoom : Z) : result (Q * Q * Q) :=
  let C_zoom := calc_c_zoom zoom in
  nl ← norm_lat lat;
  n_map_lat ← Py.div nl C_zoom;
  let n_map_lat_int := Py.floordiv1 n_map_lat in
  Ok (C_zoom, n_map_lat_int, n_map_lat - n_map_lat_int).

Definition get_exact_map_lat (fuel : nat) (lat : Q) (zoom : Z)
  : outcome (Q * Q) :=
  match lat_init lat zoom with
  | Raise e => Raised e
  | Ok (C_zoom, n_map_lat_int, diff) =>
      match lat_loop fuel C_zoom n_map_lat_int lat diff with
      | Returned lat =>
          Returned (lat + lat_degrees_per_img zoom lat 512 / 2, n_map_lat_int)
      | Raised e => Raised e
      | Running => Running
      end
  end.


(** *** Polygons *)

(** [coords.min(axis=0)], [coords.max(axis=0)]; numpy refuses to reduce
    an empty array. *)
Definition get_polygon_bbox (p : polygon) : result (Q * Q * Q * Q) :=
  match p with
  | [] => Raise ValueError
  | (long0, lat0) :: vs =>
      let left := foldl Qmin long0 (fst <$> vs) in
      let bottom := foldl Qmin lat0 (snd <$> vs) in
      let right := foldl Qmax long0 (fst <$> vs) in
      let top := foldl Qmax lat0 (snd <$> vs) in
      Ok (top, left, bottom, right)
  end.

Definition get_polygon_center (p : polygon) : result (Q * Q) :=
  '(bbox0, bbox1, bbox2, bbox3) ← get_polygon_bbox p;
  Ok ((bbox0 + bbox2) / 2, (bbox1 + bbox3) / 2).

(** *** Rasteriser *)

(** OpenCV: [drawContours size contour x y] tells whether drawing the
    filled contour on a [size] by [size] image paints column [x] of
    row [y]. *)
Variable drawContours : Z -> list (Z * Z) -> Z -> Z -> bool.

Definition int32_min : Z := - 2 ^ 31.

(** [astype(np.int32)] of a finite float: truncation toward zero; a value
    that does not fit yields the minimum (x86-64 conversion). *)
Definition astype_int32 (q : Q) : Z :=
  let z := Z.quot (Qnum q) (Zpos (Qden q)) in
  if ((int32_min <=? z) && (z <? 2 ^ 31))%Z then z else int32_min.

(** numpy scalars: a division by zero yields [inf] or [nan] (a warning,
    no exception), and so does every product with such a value; [None]
    stands for them. *)
Definition np_truediv (a b : Q) : option Q :=
  if Qeq_bool b 0 then None else Some (a / b).

Definition np_mul (x : Q) (s : option Q) : option Q :=
  (fun s => x * s) <$> s.

(** [astype(np.int32)]: a value that is not finite converts to the
    minimum as well. *)
Definition np_astype_int32 (y : option Q) : Z :=
  match y with
  | Some q => astype_int32 q
  | None => int32_min
  end.

(** The part of [obj_to_mask] headed [# convert GPS to pixels]: the
    float array [coords] just before [astype], one pair [(x, y)] per
    vertex. *)
Definition gps_to_pixels (p : polygon) (exact_map_lat exact_map_long : Q)
    (zoom size : Z) : result (list (Q * option Q)) :=
  let coords := p in
  '(lat, long) ← get_polygon_center p;
  let top := exact_map_lat + lat_degrees_per_img zoom exact_map_lat size / 2 in
  let left := exact_map_long - long_degrees_per_img zoom exact_map_long size / 2 in
  sx ← Py.div (inject_Z size) (long_degrees_per_img zoom long size);
  let sy := np_truediv (inject_Z size) (lat_degrees_per_img zoom lat size) in
  Ok ((fun v => ((fst v - left) * sx, np_mul (top - snd v) sy)) <$> coords).

(** The pixel coordinates of a vertex as the specification words them:
    both degrees-per-pixel factors taken at the tile centre. *)
Definition spec_pixel (center_lat center_long : Q) (zoom size : Z)
    (v : Q * Q) : Q * Q :=
  let top := center_lat + lat_degrees_per_img zoom center_lat size / 2 in
  let left := center_long - long_degrees_per_img zoom center_long size / 2 in
  ((fst v - left) / long_degrees_per_pixel zoom center_long,
   (top - snd v) / lat_degrees_per_pixel zoom center_lat).

(** [np.zeros((size, size, 3))], the contour drawn filled in colour
    [(0, 0, 255)], channel 2. *)
Definition paint (size : Z) (coords : list (Z * Z)) : mask :=
  (fun y => (fun x => if drawContours size coords x y then 255%Z else 0%Z)
              <$> seqZ 0 size) <$> seqZ 0 size.

Definition obj_to_mask (p : polygon) (exact_map_lat exact_map_long : Q)
    (zoom size : Z) : result mask :=
  coords ← gps_to_pixels p exact_map_lat exact_map_long zoom size;
  let coords :=
    (fun v => (astype_int32 (fst v), np_astype_int32 (snd v))) <$> coords in
  if (size <? 0)%Z then Raise ValueError
  else Ok (paint size coords).

(** *** Tests on masks *)

(** [.any()] of an array built pixel by pixel from two arrays. *)
Definition any2 (f : Z -> Z -> bool) (m1 m2 : mask) : bool :=
  existsb (fun rr => existsb (fun ab => f (fst ab) (snd ab))
                       (zip (fst rr) (snd rr)))
          (zip m1 m2).

(** [np.logical_and(a.astype(np.bool), b.astype(np.bool)).any()] *)
Definition logical_and_any : mask -> mask -> bool :=
  any2 (fun a b => negb (a =? 0)%Z && negb (b =? 0)%Z).

(** [(a & b).any()] on two [uint8] arrays. *)
Definition and_any : mask -> mask -> bool :=
  any2 (fun a b => negb (Z.land a b =? 0)%Z).

(** [np.sum(mask)] *)
Definition np_sum (m : mask) : Z :=
  foldr Z.add 0%Z (foldr Z.add 0%Z <$> m).

(** *** Polygon-level deduplication *)

(** The body of [for new in new_list]. *)
Definition overlap_body (G : gmap string value) (lat long : Q)
    (old_mask : mask) (overlap : bool) (new : polygon) : result bool :=
  zoom ← global_int G "zoom";
  size ← global_int G "size";
  new_mask ← obj_to_mask new lat long zoom size;
  Ok (if logical_and_any old_mask new_mask then true else overlap).

(** The body of [for i, old in enumerate(old_list)]. *)
Definition dedup_body (G : gmap string value) (new_list : list polygon)
    (old : polygon) : result (list polygon) :=
  '(lat, long) ← get_polygon_center old;
  zoom ← global_int G "zoom";
  size ← global_int G "size";
  old_mask ← obj_to_mask old lat long zoom size;
  overlap ← for_each (overlap_body G lat long old_mask) false new_list;
  Ok (if (overlap : bool) then new_list else new_list ++ [old]).

(** [remove_mask_duplicates], from the unpickled [old_list] to the
    [new_list] that is pickled back; [G] holds the globals of the module
    in which the function is defined.  Nothing is written when the call
    raises. *)
Definition remove_mask_duplicates (G : gmap string value)
    (old_list : list polygon) : result (list polygon) :=
  match old_list with
  | [] => Raise IndexError
  | first :: _ => for_each (dedup_body G) [first] old_list
  end.

(** *** Tile-polygon assignment *)

(** An entry of [map_list]. *)
Record map_rec : Type := MapRec {
  counter : Z;
  exact_map_long : Q;
  exact_map_lat : Q;
  zoom : Z;
  size : Z;
  name : string;
  region : string
}.

(** What [make_masks] changes: the dictionary [masks_saved] and the files
    of [MASKS_DIR]. *)
Record assignment : Type := Assignment {
  masks_saved : gmap string Z;
  MASKS_DIR : gmap string mask
}.

(** [str.format] of an integer. *)
Definition format_int (z : Z) : string := NilZero.string_of_int (Z.to_int z).

(** [.astype(np.uint8)] of a mask whose pixels are whole numbers. *)
Definition astype_uint8 (m : mask) : mask :=
  (fun row : list Z => (fun v => v mod 256)%Z <$> row) <$> m.

(** [masks_saved[name] += 1], or [masks_saved[name] = 0] on [KeyError]. *)
Definition next_ordinal (saved : gmap string Z) (name : string) : Z :=
  match saved !! name with
  | Some n => (n + 1)%Z
  | None => 0%Z
  end.

(** The body of [for polygon in obj_list], up to the writing of the
    mask; the outline drawn on the check image goes to [CHECK_DIR] and
    leaves both components untouched.  The tile image in [MAP_DIR] is
    taken to be readable. *)
Definition assign_body (m : map_rec) (st : assignment) (p : polygon)
  : result assignment :=
  mask_png ← obj_to_mask p (exact_map_lat m) (exact_map_long m) (zoom m) (size m);
  if negb (np_sum mask_png =? 0)%Z then
    let n := next_ordinal (masks_saved st) (name m) in
    let png_name := (name m +:+ "_hill_" +:+ format_int n +:+ ".png")%string in
    Ok (Assignment (<[name m := n]> (masks_saved st))
                   (<[png_name := astype_uint8 mask_png]> (MASKS_DIR st)))
  else Ok st.

(** The two nested loops.  A raised exception leaves on disk what was
    written before it; the pair returned is that state and the
    exception, if any. *)
Fixpoint assign_polygons (m : map_rec) (st : assignment) (l : list polygon)
  : assignment * option exn :=
  match l with
  | [] => (st, None)
  | p :: l =>
      match assign_body m st p with
      | Ok st => assign_polygons m st l
      | Raise e => (st, Some e)
      end
  end.

Fixpoint assign_maps (st : assignment) (map_list : list map_rec)
    (obj_list : list polygon) : assignment * option exn :=
  match map_list with
  | [] => (st, None)
  | m :: map_list =>
      match assign_polygons m st obj_list with
      | (st, None) => assign_maps st map_list obj_list
      | (st, Some e) => (st, Some e)
      end
  end.

(** [make_masks]: [masks_saved = {}], then the loops. *)
Definition make_masks (dir : gmap string mask) (map_list : list map_rec)
    (obj_list : list polygon) : gmap string mask * option exn :=
  let '(st, e) := assign_maps (Assignment ∅ dir) map_list obj_list in
  (MASKS_DIR st, e).

(** *** File-level deduplication of masks *)

(** [s.split(sep)] for a one-character separator. *)
Fixpoint split (sep : ascii) (s : string) : list string :=
  match s with
  | EmptyString => [EmptyString]
  | String c s =>
      if Ascii.eqb c sep then EmptyString :: split sep s
      else
        match split sep s with
        | w :: ws => String c w :: ws
        | [] => [String c EmptyString]
        end
  end.

(** [file.split('_')[:4]] *)
Definition map_of (file : string) : list string := take 4 (split "_" file).

(** [file.split('_')[-1].split('.')[0]] *)
Definition mask_num (file : string) : string :=
  hd EmptyString (split "." (List.last (split "_" file) EmptyString)).

(** [a > b] on strings: code points compared from the left. *)
Definition str_gt (a b : string) : bool :=
  match String.compare a b with
  | Gt => true
  | _ => false
  end.

(** The first loop: every listed file is opened and decoded. *)
Definition load_masks (files : list string) (dir : gmap string (list (list Z)))
  : result (list (string * list (list Z))) :=
  for_each (fun masks file =>
              match dir !! file with
              | Some m => Ok (masks ++ [(file, m)])
              | None => Raise FileNotFoundError
              end) [] files.

(** The body of the inner loop; [os.remove] of a file that is already
    gone raises, and the bare [except] swallows it. *)
Definition compare_body (f1 : string * list (list Z))
    (dir : gmap string (list (list Z))) (f2 : string * list (list Z))
  : gmap string (list (list Z)) :=
  let '(file_1, mask_1) := f1 in
  let '(file_2, mask_2) := f2 in
  if negb (String.eqb file_1 file_2) && and_any mask_1 mask_2 then
    let map_1 := map_of file_1 in
    let map_2 := map_of file_2 in
    if bool_decide (map_1 = map_2) then
      let mask_1_num := mask_num file_1 in
      let mask_2_num := mask_num file_2 in
      let rem_path := if str_gt mask_1_num mask_2_num then file_1 else file_2 in
      delete rem_path dir
    else dir
  else dir.

(** The file that the comparison of [f1] with [f2] removes, if any. *)
Definition removed_by (f1 f2 : string * list (list Z)) : option string :=
  if negb (String.eqb (fst f1) (fst f2)) && and_any (snd f1) (snd f2) then
    if bool_decide (map_of (fst f1) = map_of (fst f2)) then
      Some (if str_gt (mask_num (fst f1)) (mask_num (fst f2))
            then fst f1 else fst f2)
    else None
  else None.

(** [remove_masks_with_ovelapping_pixels]: [files] is what [os.listdir]
    returned, [dir] the content of [masks_dir]; the result is the
    content afterwards.  The arrays of one directory have one shape. *)
Definition remove_masks_with_ovelapping_pixels (files : list string)
    (dir : gmap string (list (list Z))) : result (gmap string (list (list Z))) :=
  masks ← load_masks files dir;
  Ok (foldl (fun dir f1 => foldl (compare_body f1) dir masks) dir masks).

End Pipeline.

(** ** Properties of masks and of the mask store *)

(** A mask has a pixel that is not zero. *)
Definition has_nonzero (m : list (list Z)) : Prop :=
  Exists (Exists (fun v => v <> 0%Z)) m.

(** Every pixel is 0 or 255. *)
Definition binary_mask (m : list (list Z)) : Prop :=
  Forall (Forall (fun v => v = 0%Z \/ v = 255%Z)) m.


(** A rasteriser that draws the outline of the contour it fills paints
    at least the vertices of the contour that lie in the image. *)
Definition paints_vertices (drawContours : Z -> list (Z * Z) -> Z -> Z -> bool) : Prop :=
  forall size ring x y,
    (x, y) ∈ ring -> (0 <= x < size)%Z -> (0 <= y < size)%Z ->
    drawContours size ring x y = true.

(** ** Module namespaces *)

(** The names that [KML_to_mask.py] binds at module level: its imports and
    its functions.  Neither these nor the builtins include [zoom] or
    [size]. *)
Definition KML_to_mask_globals : gmap string value :=
  list_to_map
    ((fun x => (x, Module_)) <$>
       ["requests"; "math"; "sys"; "os"; "json"; "np"; "cv2"; "hashlib";
        "pickle"; "ET"; "Image"]%string)
  ∪ list_to_map [("pi"%string, Float Py.pi)]
  ∪ list_to_map
    ((fun x => (x, Function)) <$>
       ["BytesIO"; "log"; "exp"; "tan";
        "get_placemarks"; "get_polygon_coords"; "get_polygon_bbox";
        "get_polygon_center"; "get_map_for_POI";
        "download_google_maps_by_center"; "calc_c_zoom"; "angle_lat";
        "long_degrees_per_pixel"; "lat_degrees_per_pixel";
        "long_degrees_per_img"; "lat_degrees_per_img"; "norm_lat";
        "get_exact_map_lat"; "get_exact_map_long"; "gl_map_by_center";
        "obj_to_mask"; "read_kml_and_load_maps";
        "remove_masks_with_ovelapping_pixels"; "remove_mask_duplicates";
        "make_masks"]%string).

(** The globals of [main.py]: the star import of the above, then its own
    assignments, among them [zoom = 17] and [size = 640]. *)
Definition main_globals : gmap string value :=
  <["zoom"%string := Int 17]> (<["size"%string := Int 640]> KML_to_mask_globals).

(** ** Rational stand-ins for the library functions

    Used only to evaluate closed instances: truncated series for libm and
    an even-odd fill that includes the outline for OpenCV. *)

Module Standin.

(** Results are cut to 53 binary digits after the point, so that the
    numbers stay small. *)
Definition round (q : Q) : Q :=
  Qfloor (q * inject_Z (2 ^ 53)) # (2 ^ 53).

Definition cos (x : Q) : Q :=
  let x := round x in
  round (1 - x ^ 2 / 2 + x ^ 4 / 24 - x ^ 6 / 720).

Definition tan (x : Q) : Q :=
  let x := round x in
  round (x + x ^ 3 / 3 + 2 * x ^ 5 / 15).

Definition log (x : Q) : Q :=
  let z := round ((x - 1) / (x + 1)) in
  round (2 * (z + z ^ 3 / 3 + z ^ 5 / 5)).

(** [p] lies on the segment from [a] to [b]. *)
Definition on_segment (a b p : Z * Z) : bool :=
  (((b.1 - a.1) * (p.2 - a.2) =? (b.2 - a.2) * (p.1 - a.1))
   && (Z.min a.1 b.1 <=? p.1) && (p.1 <=? Z.max a.1 b.1)
   && (Z.min a.2 b.2 <=? p.2) && (p.2 <=? Z.max a.2 b.2))%Z.

(** The horizontal ray from [p] to the right crosses the edge from [a]
    to [b]. *)
Definition crosses (a b p : Z * Z) : bool :=
  (if Bool.eqb (p.2 <? a.2) (p.2 <? b.2) then false
   else
     let dy := b.2 - a.2 in
     let lhs := (p.1 - a.1) * dy in
     let rhs := (b.1 - a.1) * (p.2 - a.2) in
     if 0 <? dy then lhs <? rhs else rhs <? lhs)%Z.

(** The edges of the closed ring. *)
Definition edges (contour : list (Z * Z)) : list ((Z * Z) * (Z * Z)) :=
  match contour with
  | [] => []
  | v :: vs => zip contour (vs ++ [v])
  end.

(** A pixel of the image is painted when it lies on an edge of the ring or
    when the ray crosses an odd number of edges. *)
Definition drawContours (size : Z) (contour : list (Z * Z)) (x y : Z) : bool :=
  let es := edges contour in
  ((0 <=? x) && (x <? size) && (0 <=? y) && (y <? size))%Z
  && (existsb (fun e => on_segment e.1 e.2 (x, y)) es
      || fold_right (fun e odd => xorb (crosses e.1 e.2 (x, y)) odd) false es).

End Standin.

(** [norm_lat] as the stand-ins compute it. *)
Definition standin_norm_lat (lat : Q) : Q :=
  match norm_lat Standin.cos Standin.tan Standin.log lat with
  | Ok nl => nl
  | Raise _ => 0
  end.


(** The value of a call that returns. *)
Definition value_of {A} (d : A) (r : result A) : A :=
  match r with
  | Ok a => a
  | Raise _ => d
  end.

(** ** Sample data *)

Module Sample.

(** Two masks of one tile, with ordinals 2 and 10, as [make_masks] names
    them. *)
Definition hill_2 : string := "lat_50.0027466_long_30.0027466_zoom_17_hill_2.png".
Definition hill_10 : string := "lat_50.0027466_long_30.0027466_zoom_17_hill_10.png".

(** A two by two mask whose top left pixel is set. *)
Definition corner : list (list Z) := [[255; 0]; [0; 0]]%Z.

Definition masks_dir : gmap string (list (list Z)) :=
  <[hill_2 := corner]> (<[hill_10 := corner]> ∅).



(** A ring of three vertices at one point. *)
Definition point_ring : list (Q * Q) := [(30, 50); (30, 50); (30, 50)].

(** A square of about four by six pixels at zoom 17 around the same
    point. *)
Definition small_square : list (Q * Q) :=
  [(30 - (2 # 100000), 50 - (2 # 100000)); (30 + (2 # 100000), 50 - (2 # 100000));
   (30 + (2 # 100000), 50 + (2 # 100000)); (30 - (2 # 100000), 50 + (2 # 100000))].

(** A tile of 16 pixels centred on that point. *)
Definition tile : map_rec := MapRec 0 30 50 17 16 "lat_50.0000000_long_30.0000000_zoom_17" "region".

(** What is left of [hill_2] and of [hill_10] after the file-level
    deduplication of [masks_dir], listed as [files]. *)
Definition kept_after (files : list string)
  : option (option (list (list Z)) * option (list (list Z))) :=
  match remove_masks_with_ovelapping_pixels files masks_dir with
  | Ok dir => Some (dir !! hill_2, dir !! hill_10)
  | Raise _ => None
  end.

End Sample.

(** ** Values of calls *)

(** The value of a loop that returns. *)
Definition returned_of {A} (d : A) (o : outcome A) : A :=
  match o with
  | Returned a => a
  | _ => d
  end.


(** A call returns. *)
Definition is_ok {A} (r : result A) : bool :=
  match r with
  | Ok _ => true
  | Raise _ => false
  end.


(** ** Python builtins on floats *)

Module Builtins.

(** [x % 1] on a float: [x] minus its floor, in the interval from 0 to 1. *)
Definition mod1 (x : Q) : Q := x - inject_Z (Qfloor x).

(** The integer nearest to [x], a tie going to the even one. *)
Definition nearest_even (x : Q) : Z :=
  let f := Qfloor x in
  match Qcompare (x - inject_Z f) (1 # 2) with
  | Lt => f
  | Eq => if Z.even f then f else (f + 1)%Z
  | Gt => (f + 1)%Z
  end.

(** [round(x, ndigits)] *)
Definition round (x : Q) (ndigits : Z) : Q :=
  inject_Z (nearest_even (x * 10 ^ ndigits)) / 10 ^ ndigits.

End Builtins.

Section PointOfInterest.

Variables cos tan log : Q -> Q.

Definition get_map_for_POI (lat long : Q) (zoom size : Z)
  : result (Q * Q * Z * Z) :=
  let C_zoom := 360 / 2 ^ (zoom - 1)%Z in
  n_map_long ← Py.div long C_zoom;
  let lat_angle := lat * Py.pi / 180 in
  sec ← Py.div 1 (cos lat_angle);
  l ← math_log log (sec + tan lat_angle);
  let lat_norm := 180 / Py.pi * l in
  n_map_lat ← Py.div lat_norm C_zoom;
  let lat_Degrees_per_img512 := C_zoom * cos lat_angle in
  let center_map_lat :=
    lat + ((1 # 2) - Builtins.mod1 n_map_lat) * lat_Degrees_per_img512 in
  let lat_Degrees_per_img512 := C_zoom * cos (center_map_lat * Py.pi / 180) in
  let center_map_lat :=
    lat + ((1 # 2) - Builtins.mod1 n_map_lat) * lat_Degrees_per_img512 in
  let lat_Degrees_per_img512 := C_zoom * cos (center_map_lat * Py.pi / 180) in
  let center_map_lat :=
    lat + ((1 # 2) - Builtins.mod1 n_map_lat) * lat_Degrees_per_img512 in
  let lng_Degrees_per_img512 := C_zoom in
  let center_map_long :=
    long + ((1 # 2) - Builtins.mod1 n_map_long) * lng_Degrees_per_img512 in
  Ok (Builtins.round center_map_long 7, Builtins.round center_map_lat 7, zoom, size).

End PointOfInterest.


(** ** Names and masks of [make_masks] *)

(** [name + '_hill_{}.png'.format(n)] *)
Definition png_name (name : string) (n : Z) : string :=
  (name +:+ "_hill_" +:+ format_int n +:+ ".png")%string.

(** The masks that the loop over [obj_list] writes for the tile [m], in
    the order of [obj_list]: those of the polygons whose mask on the tile
    has a nonzero sum. *)
Definition hit_masks (cos : Q -> Q) (drawContours : Z -> list (Z * Z) -> Z -> Z -> bool)
    (m : map_rec) (obj_list : list (list (Q * Q))) : list (list (list Z)) :=
  omap (fun p =>
          match obj_to_mask cos drawContours p (exact_map_lat m) (exact_map_long m)
                  (zoom m) (size m) with
          | Ok mask_png =>
              if (np_sum mask_png =? 0)%Z then None else Some (astype_uint8 mask_png)
          | Raise _ => None
          end) obj_list.


(** [dir'] keeps every file of [dir] and differs from [dir] only in mask
    files of the tiles named [names]. *)
Definition only_masks_of (names : list string)
    (dir dir' : gmap string (list (list Z))) : Prop :=
  (forall file, is_Some (dir !! file) -> is_Some (dir' !! file)) /\
  (forall file,
     (forall nm n, nm ∈ names -> file <> png_name nm n) ->
     dir' !! file = dir !! file).


(** On the tile centred on [b], the masks of [a] and of [b] have no
    nonzero pixel in common. *)
Definition apart (cos : Q -> Q) (drawContours : Z -> list (Z * Z) -> Z -> Z -> bool)
    (zoom size : Z) (a b : list (Q * Q)) : Prop :=
  exists lat long mask_b mask_a,
    get_polygon_center b = Ok (lat, long) /\
    obj_to_mask cos drawContours b lat long zoom size = Ok mask_b /\
    obj_to_mask cos drawContours a lat long zoom size = Ok mask_a /\
    logical_and_any mask_b mask_a = false.


(** ** Strings *)

(** [s.split(sep)] for a separator of any positive length: the pieces
    between the occurrences of [sep], found from the left and not
    overlapping.  [skip] counts the characters of an occurrence still to
    be passed over. *)
Fixpoint split_at (sep : string) (skip : nat) (s : string) : list string :=
  match s with
  | EmptyString => [EmptyString]
  | String c s' =>
      match skip with
      | S skip => split_at sep skip s'
      | O =>
          if String.prefix sep s
          then EmptyString :: split_at sep (String.length sep - 1) s'
          else
            match split_at sep 0 s' with
            | w :: ws => String c w :: ws
            | [] => [String c EmptyString]
            end
      end
  end.

Definition str_split (sep s : string) : list string := split_at sep 0 s.

(** [s.endswith(suffix)] *)
Definition endswith (s suffix : string) : bool :=
  (String.length suffix <=? String.length s)%nat
  && String.eqb (substring (String.length s - String.length suffix)
                   (String.length suffix) s) suffix.

(** [os.path.join(dir, file)] for a file name that [os.listdir] gave. *)
Definition path_join (dir file : string) : string :=
  if String.eqb dir "" || endswith dir "/" then (dir +:+ file)%string
  else (dir +:+ "/" +:+ file)%string.

(** [s.zfill(width)] of a string of digits. *)
Definition zfill (width : nat) (s : string) : string :=
  (string_of_list_ascii (replicate (width - String.length s) "0"%char) +:+ s)%string.

(** ['{:.7f}'.format(x)] of a numpy scalar; [None] is [nan]. *)
Definition format_7f (x : option Q) : string :=
  match x with
  | None => "nan"
  | Some q =>
      let n := Builtins.nearest_even (Qabs q * 10 ^ 7) in
      ((if Qle_bool 0 q then "" else "-")
       +:+ format_int (n / 10 ^ 7) +:+ "." +:+ zfill 7 (format_int (n mod 10 ^ 7)))%string
  end.

(** ** Exceptions beyond the arithmetic ones *)

Inductive exception : Type :=
| Builtin (e : exn)
| AttributeError
| SystemExit (code : Z)
| Other (name : string).

(** A call of the input and output layer either returns or propagates an
    exception. *)
Inductive attempt (A : Type) : Type :=
| Success (a : A)
| Failure (e : exception).
Arguments Success {A} a.
Arguments Failure {A} e.

#[global] Instance attempt_ret : MRet attempt := @Success.
#[global] Instance attempt_bind : MBind attempt := fun A B k r =>
  match r with
  | Success a => k a
  | Failure e => Failure e
  end.

Definition of_result {A} (r : result A) : attempt A :=
  match r with
  | Ok a => Success a
  | Raise e => Failure (Builtin e)
  end.

(** ** Calls *)

(** An argument of a call. *)
Inductive arg : Type :=
| ArgFloat (x : option Q)
| ArgInt (z : Z)
| ArgStr (s : string)
| ArgNone.

(** A parameter of a [def], with its default if it has one. *)
Record param : Type := Param {
  param_name : string;
  param_default : option arg
}.

(** Positional arguments fill the parameters from the left; more
    arguments than parameters is a [TypeError]. *)
Fixpoint bind_positional (params : list param) (args : list arg)
  : result (list (string * arg) * list param) :=
  match args, params with
  | [], _ => Ok ([], params)
  | _ :: _, [] => Raise TypeError
  | a :: args, p :: params =>
      '(bound, rest) ← bind_positional params args;
      Ok ((param_name p, a) :: bound, rest)
  end.

(** A keyword argument must name a parameter that has no value yet. *)
Fixpoint bind_keywords (rest : list param) (bound : list (string * arg))
    (kwargs : list (string * arg)) : result (list (string * arg)) :=
  match kwargs with
  | [] => Ok bound
  | (k, a) :: kwargs =>
      if bool_decide (k ∈ param_name <$> rest) && negb (bool_decide (k ∈ bound.*1))
      then bind_keywords rest (bound ++ [(k, a)]) kwargs
      else Raise TypeError
  end.

(** What is left takes its default; a parameter without value and without
    default is a [TypeError]. *)
Fixpoint bind_defaults (rest : list param) (bound : list (string * arg))
  : result (list (string * arg)) :=
  match rest with
  | [] => Ok bound
  | p :: rest =>
      if bool_decide (param_name p ∈ bound.*1) then bind_defaults rest bound
      else
        match param_default p with
        | Some a => bind_defaults rest (bound ++ [(param_name p, a)])
        | None => Raise TypeError
        end
  end.

(** The local names of a call, from its positional and its keyword
    arguments. *)
Definition bind_call (params : list param) (args : list arg)
    (kwargs : list (string * arg)) : result (list (string * arg)) :=
  '(bound, rest) ← bind_positional params args;
  bound ← bind_keywords rest bound kwargs;
  bind_defaults rest bound.

(** [def gl_map_by_center(lat, long, GOOGLE_MAPS_API_KEY, zoom=17, size=640)] *)
Definition gl_map_by_center_params : list param :=
  [Param "lat" None; Param "long" None; Param "GOOGLE_MAPS_API_KEY" None;
   Param "zoom" (Some (ArgInt 17)); Param "size" (Some (ArgInt 640))].

(** ** [read_kml_and_load_maps] *)

(** [get_exact_map_long] on a numpy scalar, as [read_kml_and_load_maps]
    calls it: the divisions are numpy's, and at [long = 0] the quotient
    [diff / n_map_long] is [nan] where the division of Python floats
    raises; [None] stands for [nan]. *)
Definition np_get_exact_map_long (long : Q) (zoom : Z) : option Q * option Q :=
  let C_zoom := calc_c_zoom zoom in
  let n_map_long := np_truediv long C_zoom in
  let n_map_long_int := Py.floordiv1 <$> n_map_long in
  let diff := n ← n_map_long; i ← n_map_long_int; Some (n - i) in
  let q := d ← diff; n ← n_map_long; np_truediv d n in
  let long := (fun q => long * (1 - q)) <$> q in
  ((fun long => long + long_degrees_per_img zoom long 512 / 2) <$> long,
   n_map_long_int).

Section LoadMaps.

Variables cos tan log : Q -> Q.

(** One execution of the loop body of [get_exact_map_lat] on a numpy
    scalar.  Only [/ lat] is numpy's division: when [lat] is zero the
    quotient is infinite, [lat *= (1 - ratio)] makes [lat] a [nan], libm
    returns [nan] for it without raising, and [None] is returned for the
    new state. *)
Definition np_lat_body (C_zoom n_map_lat_int lat diff : Q)
  : result (option (Q * Q)) :=
  if Qeq_bool lat 0 then
    _ ← Py.div diff n_map_lat_int;
    _ ← norm_lat cos tan log lat;
    Ok None
  else
    s ← lat_body cos tan log C_zoom n_map_lat_int lat diff;
    Ok (Some s).

(** The loop; [abs(nan) > 10 ** -9] is false, so a [nan] ends it. *)
Fixpoint np_lat_loop (fuel : nat) (C_zoom n_map_lat_int lat diff : Q)
  : outcome (option Q) :=
  if Qle_bool (Qabs diff) tolerance then Returned (Some lat)
  else
    match fuel with
    | O => Running
    | S fuel =>
        match np_lat_body C_zoom n_map_lat_int lat diff with
        | Raise e => Raised e
        | Ok None => Returned None
        | Ok (Some (lat, diff)) => np_lat_loop fuel C_zoom n_map_lat_int lat diff
        end
    end.

Definition np_get_exact_map_lat (fuel : nat) (lat : Q) (zoom : Z)
  : outcome (option Q * Q) :=
  match lat_init cos tan log lat zoom with
  | Raise e => Raised e
  | Ok (C_zoom, n_map_lat_int, diff) =>
      match np_lat_loop fuel C_zoom n_map_lat_int lat diff with
      | Returned lat =>
          Returned ((fun lat => lat + lat_degrees_per_img cos zoom lat 512 / 2) <$> lat,
                    n_map_lat_int)
      | Raised e => Raised e
      | Running => Running
      end
  end.

(** ElementTree and the coordinate arrays: [Polygons path] is the list
    [Polygons] that [get_placemarks] returns for the file at [path], each
    placemark given by what [get_polygon_coords] returns or raises for
    it. *)
Variable Polygons : string -> attempt (list (attempt (list (Q * Q)))).

(** Pillow images. *)
Variable image : Type.

(** The body of [gl_map_by_center], from its local names to the image:
    the request to the static maps service and its decoding. *)
Variable staticmap : list (string * arg) -> attempt image.

Definition gl_map_by_center (args : list arg) (kwargs : list (string * arg))
  : attempt image :=
  locals ← of_result (bind_call gl_map_by_center_params args kwargs);
  staticmap locals.

(** An entry [[counter, exact_map_long, exact_map_lat, zoom, size, name,
    region]] as it is appended to [map_list]. *)
Definition map_entry : Type := Z * option Q * option Q * Z * Z * string * string.

(** What the loops of [read_kml_and_load_maps] change: the three lists and
    the images saved in [MAP_DIR]. *)
Record loading : Type := Loading {
  map_files : list string;
  map_list : list map_entry;
  obj_list : list (list (Q * Q));
  saved : list (string * image)
}.

(** How a run ends. *)
Inductive ending : Type :=
| Completed
| Raising (e : exception)
| StillRunning.

(** The name of the tile of a polygon, lines 282 to 289. *)
Definition tile_of (fuel : nat) (zoom : Z) (coords : list (Q * Q))
  : outcome (option Q * option Q * string) :=
  match get_polygon_center coords with
  | Raise e => Raised e
  | Ok (lat, long) =>
      match np_get_exact_map_lat fuel lat zoom with
      | Raised e => Raised e
      | Running => Running
      | Returned (exact_map_lat, n_map_lat_int) =>
          let '(exact_map_long, n_map_long_int) := np_get_exact_map_long long zoom in
          let name := ("lat_" +:+ format_7f exact_map_lat
                       +:+ "_long_" +:+ format_7f exact_map_long
                       +:+ "_zoom_" +:+ format_int zoom)%string in
          Returned (exact_map_lat, exact_map_long, name)
      end
  end.

(** The body of [for polygon in Polygons]. *)
Definition load_polygon (fuel : nat) (MAP_DIR : string) (zoom size : Z)
    (counter : Z) (region : string) (st : loading)
    (polygon : attempt (list (Q * Q))) : loading * ending :=
  match polygon with
  | Failure e => (st, Raising e)
  | Success coords =>
      match tile_of fuel zoom coords with
      | Raised e => (st, Raising (Builtin e))
      | Running => (st, StillRunning)
      | Returned (exact_map_lat, exact_map_long, name) =>
          let im_name := (name +:+ ".jpg")%string in
          let im_path := path_join MAP_DIR im_name in
          if bool_decide (im_name ∈ map_files st) then
            (Loading (map_files st) (map_list st) (obj_list st ++ [coords]) (saved st),
             Completed)
          else
            match gl_map_by_center [ArgFloat exact_map_lat; ArgFloat exact_map_long]
                    [("zoom"%string, ArgInt zoom); ("size"%string, ArgInt size)] with
            | Failure e => (st, Raising e)
            | Success im =>
                (Loading (map_files st ++ [im_name])
                   (map_list st
                    ++ [(counter, exact_map_long, exact_map_lat, zoom, size, name, region)])
                   (obj_list st ++ [coords])
                   (saved st ++ [(im_path, im)]),
                 Completed)
            end
      end
  end.

Fixpoint load_polygons (fuel : nat) (MAP_DIR : string) (zoom size : Z)
    (counter : Z) (region : string) (st : loading)
    (l : list (attempt (list (Q * Q)))) : loading * ending :=
  match l with
  | [] => (st, Completed)
  | polygon :: l =>
      match load_polygon fuel MAP_DIR zoom size counter region st polygon with
      | (st, Completed) => load_polygons fuel MAP_DIR zoom size counter region st l
      | r => r
      end
  end.

(** The loop [for kml in kml_files] with its [counter]. *)
Fixpoint load_kmls (fuel : nat) (ANNOT_DIR MAP_DIR : string) (zoom size : Z)
    (counter : Z) (st : loading) (kml_files : list string) : loading * ending :=
  match kml_files with
  | [] => (st, Completed)
  | kml :: kml_files =>
      let region := hd EmptyString (str_split ".kml" kml) in
      let path_to_kml := path_join ANNOT_DIR kml in
      match Polygons path_to_kml with
      | Failure e => (st, Raising e)
      | Success polygons =>
          match load_polygons fuel MAP_DIR zoom size counter region st polygons with
          | (st, Completed) =>
              load_kmls fuel ANNOT_DIR MAP_DIR zoom size (counter + 1) st kml_files
          | r => r
          end
      end
  end.

(** [read_kml_and_load_maps].  [pickled] is the content of
    [map_list.pickle] if the file is there, [annot_files] and [map_dir]
    are what [os.listdir] returns for [ANNOT_DIR] and [MAP_DIR].  The
    result tells how the run ends, which images it saved, and the two
    lists that it pickles when it ends normally. *)
Definition read_kml_and_load_maps (fuel : nat) (ANNOT_DIR MAP_DIR : string)
    (zoom size : Z) (pickled : option (list map_entry))
    (annot_files map_dir : list string)
  : ending * list (string * image)
    * option (list map_entry * list (list (Q * Q))) :=
  let kml_files := filter (fun file => endswith file ".kml" = true) annot_files in
  let '(st, e) :=
    load_kmls fuel ANNOT_DIR MAP_DIR zoom size 0
      (Loading map_dir (default [] pickled) [] []) kml_files in
  (e, saved st,
   match e with
   | Completed => Some (map_list st, obj_list st)
   | _ => None
   end).

End LoadMaps.

Arguments Loading {image} _ _ _ _.
Arguments map_files {image} _.
Arguments map_list {image} _.
Arguments obj_list {image} _.
Arguments saved {image} _.

(** The state after a polygon differs from the state before it by that
    polygon at the end of [obj_list], and the polygon's tile was there. *)
Definition loaded_from (fuel : nat) (zoom : Z) {image : Type}
    (cos tan log : Q -> Q) (st st' : loading image)
    (l : list (list (Q * Q))) : Prop :=
  map_files st' = map_files st /\
  map_list st' = map_list st /\
  saved st' = saved st /\
  obj_list st' = obj_list st ++ l /\
  Forall (fun coords =>
            exists lat long name,
              tile_of cos tan log fuel zoom coords = Returned (lat, long, name) /\
              (name +:+ ".jpg")%string ∈ map_files st) l.


(** ** [download_google_maps_by_center] *)

Section Download.

(** The static maps service: the response to the request for a record
    with the key, or [None] when [requests] raises a [RequestException].
    A key bound to [None] is not among the values modelled. *)
Variable bytes : Type.
Variable requests_get : list arg -> value -> option bytes.

(** Pillow: decoding and conversion to RGB. *)
Variable image : Type.
Variable Image_open : bytes -> attempt image.

(** What the loop changes: the list [names], the images saved in
    [SAVE_DIR] and, for the record, the names requested. *)
Record downloading : Type := Downloading {
  names : list string;
  requested : list string;
  downloaded : list (string * image)
}.

(** How a loop of the input and output layer ends. *)
Inductive finish : Type :=
| Finished
| Aborted (e : exception).

(** The body of [for rec in obj2map]; [G] holds the globals of the module
    in which the function is defined. *)
Definition download_rec (G : gmap string value) (SAVE_DIR : string)
    (st : downloading) (rec : list arg) : downloading * finish :=
  match rec with
  | [i; center_map_long; center_map_lat; zoom; size; hsh] =>
      match hsh with
      | ArgStr hsh =>
          let name := (hsh +:+ ".jpg")%string in
          if bool_decide (name ∈ names st) then (st, Finished)
          else
            match G !! "GOOGLE_MAPS_API_KEY"%string with
            | None => (st, Aborted (Builtin (NameError "GOOGLE_MAPS_API_KEY")))
            | Some key =>
                let st := Downloading (names st) (requested st ++ [name])
                            (downloaded st) in
                match requests_get rec key with
                | None => (st, Aborted (SystemExit 1))
                | Some content =>
                    match Image_open content with
                    | Failure e => (st, Aborted e)
                    | Success rgb_im =>
                        let save_path := path_join SAVE_DIR name in
                        (Downloading (names st ++ [name]) (requested st)
                           (downloaded st ++ [(save_path, rgb_im)]),
                         Finished)
                    end
                end
            end
      | _ => (st, Aborted (Builtin TypeError))
      end
  | _ => (st, Aborted (Builtin ValueError))
  end.

Fixpoint download_recs (G : gmap string value) (SAVE_DIR : string)
    (st : downloading) (obj2map : list (list arg)) : downloading * finish :=
  match obj2map with
  | [] => (st, Finished)
  | rec :: obj2map =>
      match download_rec G SAVE_DIR st rec with
      | (st, Finished) => download_recs G SAVE_DIR st obj2map
      | r => r
      end
  end.

(** [download_google_maps_by_center]; [save_dir] is what [os.listdir]
    returns for [SAVE_DIR]. *)
Definition download_google_maps_by_center (G : gmap string value)
    (SAVE_DIR : string) (save_dir : list string) (obj2map : list (list arg))
  : downloading * finish :=
  download_recs G SAVE_DIR (Downloading save_dir [] []) obj2map.

End Download.

Arguments Downloading {image} _ _ _.
Arguments names {image} _.
Arguments requested {image} _.
Arguments downloaded {image} _.

(** ** KML placemarks *)

Module ET.

#[local] Unset Elimination Schemes.

(** An element of an ElementTree: its tag, its text and its children. *)
Inductive element : Type :=
| Element (tag : string) (text : option string) (children : list element).

#[local] Set Elimination Schemes.

Definition tag (e : element) : string := let 'Element t _ _ := e in t.
Definition text (e : element) : option string := let 'Element _ x _ := e in x.
Definition children (e : element) : list element := let 'Element _ _ cs := e in cs.

(** [elem.iter(tag)]: the element itself and its descendants that have
    the tag, in document order. *)
Fixpoint iter (t : string) (e : element) : list element :=
  let 'Element _ _ cs := e in
  (if String.eqb (tag e) t then [e] else [])
  ++ (fix go (cs : list element) : list element :=
        match cs with
        | [] => []
        | c :: cs => iter t c ++ go cs
        end) cs.

(** [elem.find(tag)]: the first child with the tag. *)
Definition find (t : string) (e : element) : option element :=
  List.find (fun c => String.eqb (tag c) t) (children e).

(** The truth value of [elem.find(tag)]: [None] is false, and an element
    is true when it has children. *)
Definition truthy (e : option element) : bool :=
  match e with
  | None => false
  | Some e => negb (Nat.eqb (length (children e)) 0)
  end.

End ET.

(** [l[i]] *)
Definition item {A} (l : list A) (i : nat) : attempt A :=
  match l !! i with
  | Some x => Success x
  | None => Failure (Builtin IndexError)
  end.

Definition newline : string := String "010"%char EmptyString.
Definition tab : ascii := "009"%char.

(** The separator of [get_polygon_coords]: seven tabs. *)
Definition tabs7 : string := string_of_list_ascii (replicate 7 tab).

Section Kml.

(** [ET.parse(path).getroot()] *)
Variable parse : string -> attempt ET.element.

(** The conversion of a string to a float by [astype]. *)
Variable float : string -> option Q.

Definition kml_prefix : string := "{http://www.opengis.net/kml/2.2}".

Definition get_placemarks (path_to_kml : string)
  : attempt (list ET.element * list ET.element) :=
  root ← parse path_to_kml;
  root0 ← item (ET.children root) 0;
  let Placemarks := ET.iter (kml_prefix +:+ "Placemark") root0 in
  let Polygons :=
    filter (fun elem => ET.truthy (ET.find (kml_prefix +:+ "Polygon") elem) = true)
      Placemarks in
  Success (Placemarks, Polygons).

(** [np.array(coords).astype(np.float)] of a list of lists of strings, as
    a list of rows: the rows must have one length, and every string must
    be the text of a float. *)
Definition astype_float (coords : list (list string)) : attempt (list (list Q)) :=
  if forallb (fun row => Nat.eqb (length row) (length (hd [] coords))) coords
  then
    mapM (mapM (fun s => match float s with
                         | Some q => Success q
                         | None => Failure (Builtin ValueError)
                         end)) coords
  else Failure (Builtin ValueError).

Definition get_polygon_coords (polygon : ET.element) : attempt (list (list Q)) :=
  e ← item (ET.children polygon) 2;
  e ← item (ET.children e) 1;
  e ← item (ET.children e) 0;
  e ← item (ET.children e) 0;
  text ← match ET.text e with
         | Some s => Success s
         | None => Failure AttributeError
         end;
  line ← item (str_split newline text) 1;
  coords ← item (str_split tabs7 line) 1;
  let coords := str_split " " coords in
  let coords :=
    (fun coord => take 2 (str_split "," coord))
      <$> filter (fun coord => coord <> EmptyString) coords in
  astype_float coords.

End Kml.

(** The character [c] does not occur in [s]. *)
Fixpoint free_of (c : ascii) (s : string) : Prop :=
  match s with
  | EmptyString => True
  | String x s => x <> c /\ free_of c s
  end.

(** A coordinate as KML writes it: no comma, no blank, no tab and no line
    break. *)
Definition plain (s : string) : Prop :=
  free_of "," s /\ free_of " " s /\ free_of tab s /\ free_of "010" s.

(** The text of a [coordinates] element as Google Earth writes it: a line
    break, seven tabs, the tuples [long,lat,alt] each followed by a blank,
    a line break and six tabs. *)
Definition tuples_text (tuples : list (string * string * string)) : string :=
  foldr (fun '(x, y, z) rest => (x +:+ "," +:+ y +:+ "," +:+ z +:+ " " +:+ rest)%string)
    EmptyString tuples.

Definition coordinates_text (tuples : list (string * string * string)) : string :=
  (newline +:+ tabs7 +:+ tuples_text tuples +:+ newline
   +:+ string_of_list_ascii (replicate 6 tab))%string.

(** Induction on elements, with the property at hand for all children. *)
Fixpoint element_rect' (P : ET.element -> Prop)
    (H : forall t x cs, Forall P cs -> P (ET.Element t x cs)) (e : ET.element) : P e :=
  match e with
  | ET.Element t x cs =>
      H t x cs
        ((fix go (cs : list ET.element) : Forall P cs :=
            match cs with
            | [] => @List.Forall_nil _ P
            | c :: cs => @List.Forall_cons _ P c cs (element_rect' P H c) (go cs)
            end) cs)
  end.


(** ** The categories of [main.py] *)

(** [sub in s] on strings. *)
Fixpoint contains (sub s : string) : bool :=
  String.prefix sub s
  || match s with
     | EmptyString => false
     | String _ s' => contains sub s'
     end.

(** [CATEGORIES]: one category, with its [id], [name] and
    [supercategory]. *)
Definition CATEGORIES : list (Z * string * string) :=
  [(1%Z, "hill", "artefact")]%string.

(** [[x['id'] for x in CATEGORIES if x['name'] in annotation_filename][0]] *)
Definition class_id (annotation_filename : string) : result Z :=
  match filter (fun x => contains (snd (fst x)) annotation_filename = true) CATEGORIES with
  | [] => Raise IndexError
  | x :: _ => Ok (fst (fst x))
  end.

(** [category_info]: the [id] and [is_crowd]. *)
Definition category_info (annotation_filename : string) : result (Z * bool) :=
  class_id ← class_id annotation_filename;
  Ok (class_id, contains "crowd" annotation_filename).

(** ** More sample data *)

Module SampleMasks.

(** Globals that bind [zoom] and [size], for tiles of 16 pixels. *)
Definition small_globals : gmap string value :=
  <["zoom"%string := Int 17]> (<["size"%string := Int 16]> KML_to_mask_globals).

(** The square of [Sample.small_square] one degree to the north and to
    the east. *)
Definition far_square : list (Q * Q) :=
  (fun v => (fst v + 1, snd v + 1)) <$> Sample.small_square.

(** Two masks with the same first four name fields and the same ordinal,
    at two zoom levels. *)
Definition zoom_17_hill_0 : string := "lat_50.0027466_long_30.0027466_zoom_17_hill_0.png".
Definition zoom_18_hill_0 : string := "lat_50.0027466_long_30.0027466_zoom_18_hill_0.png".

Definition two_zooms : gmap string (list (list Z)) :=
  <[zoom_17_hill_0 := Sample.corner]> (<[zoom_18_hill_0 := Sample.corner]> ∅).

End SampleMasks.

Module SampleLoad.

(** A latitude a little above the first grid line north of the equator
    at zoom 17. *)
Definition near_grid_line : Q := calc_c_zoom 17 * (1 + (1 # 1000000000)).

(** A ring of three vertices at one point a little above the first grid
    line north of the equator at zoom 17. *)
Definition near_point : list (Q * Q) :=
  [(1 # 10, near_grid_line); (1 # 10, near_grid_line); (1 # 10, near_grid_line)].

(** An annotation directory with one KML file of one placemark. *)
Definition placemarks (path : string) : attempt (list (attempt (list (Q * Q)))) :=
  if String.eqb path "annot/hills.kml" then Success [Success near_point]
  else Failure (Builtin FileNotFoundError).

Definition annot_files : list string := ["hills.kml"; "notes.txt"; "map_list.pickle"]%string.

(** A service that answers every request. *)
Definition staticmap (locals : list (string * arg)) : attempt unit := Success tt.

(** The name of the tile of [near_point], as the stand-ins compute it. *)
Definition tile : option Q * option Q * string :=
  returned_of (None, None, EmptyString)
    (tile_of Standin.cos Standin.tan Standin.log 1 17 near_point).

End SampleLoad.

Module SampleKml.

(** A float parser for whole numbers. *)
Definition whole_number (s : string) : option Q :=
  (fun d => inject_Z (Z.of_int d)) <$> NilZero.int_of_string s.

Definition triangle : list (string * string * string) :=
  [("30", "50", "0"); ("31", "50", "0"); ("31", "51", "0")]%string.

(** A placemark as Google Earth writes it: name, style and polygon. *)
Definition coordinates : ET.element :=
  ET.Element (kml_prefix +:+ "coordinates") (Some (coordinates_text triangle)) [].

Definition polygon : ET.element :=
  ET.Element (kml_prefix +:+ "Polygon") None
    [ET.Element (kml_prefix +:+ "tessellate") (Some "1"%string) [];
     ET.Element (kml_prefix +:+ "outerBoundaryIs") None
       [ET.Element (kml_prefix +:+ "LinearRing") None [coordinates]]].

Definition placemark : ET.element :=
  ET.Element (kml_prefix +:+ "Placemark") None
    [ET.Element (kml_prefix +:+ "name") (Some "hill"%string) [];
     ET.Element (kml_prefix +:+ "styleUrl") (Some "#style"%string) [];
     polygon].

(** A placemark with a point, and one whose polygon has no children. *)
Definition point : ET.element :=
  ET.Element (kml_prefix +:+ "Placemark") None
    [ET.Element (kml_prefix +:+ "name") (Some "peak"%string) [];
     ET.Element (kml_prefix +:+ "Point") None [coordinates]].

Definition hollow : ET.element :=
  ET.Element (kml_prefix +:+ "Placemark") None
    [ET.Element (kml_prefix +:+ "name") (Some "hollow"%string) [];
     ET.Element (kml_prefix +:+ "styleUrl") (Some "#style"%string) [];
     ET.Element (kml_prefix +:+ "Polygon") None []].

Definition document : ET.element :=
  ET.Element (kml_prefix +:+ "kml") None
    [ET.Element (kml_prefix +:+ "Document") None
       [ET.Element (kml_prefix +:+ "Folder") None [placemark; point]; hollow]].

Definition parse (path : string) : attempt ET.element :=
  if String.eqb path "annot/hills.kml" then Success document
  else Failure (Builtin FileNotFoundError).

End SampleKml.

(** * Theorems *)

(** ** The longitude solver *)

Lemma calc_c_zoom_pos (zoom : Z) : 0 < calc_c_zoom zoom.
Proof.
  unfold calc_c_zoom.
  assert (H : 0 < 2 ^ (zoom - 1)%Z) by (apply Qpower_0_lt; reflexivity).
  apply Qlt_shift_div_l; [exact H | lra].
Qed.

Lemma div_nonzero (a b : Q) : ~ b == 0 -> Py.div a b = Ok (a / b).
Proof.
  intros Hb. unfold Py.div.
  destruct (Qeq_bool b 0) eqn:E; [|reflexivity].
  apply Qeq_bool_iff in E. contradiction.
Qed.

Lemma div_zero (a b : Q) : b == 0 -> Py.div a b = Raise ZeroDivisionError.
Proof.
  intros Hb. unfold Py.div.
  apply Qeq_bool_iff in Hb. now rewrite Hb.
Qed.

Lemma calc_c_zoom_nonzero (zoom : Z) : ~ calc_c_zoom zoom == 0.
Proof. pose proof (calc_c_zoom_pos zoom). lra. Qed.








(** ** The latitude loop *)

Lemma Qfloor_unit_interval (x : Q) : 0 <= x -> x < 1 -> Qfloor x = 0%Z.
Proof.
  intros H0 H1.
  pose proof (Qfloor_le x) as Hle. pose proof (Qlt_floor x) as Hlt.
  assert (A : inject_Z (Qfloor x) < inject_Z 1) by (change (inject_Z 1) with 1; lra).
  assert (B : inject_Z (-1) < inject_Z (Qfloor x)).
  { rewrite inject_Z_plus in Hlt. change (inject_Z 1) with 1 in Hlt.
    change (inject_Z (-1)) with (-1 # 1). lra. }
  rewrite <- Zlt_Qlt in A, B. lia.
Qed.







(** In the grid cell next to the equator on its northern side the integer
    grid index is zero, and the first execution of the loop body divides by
    it. *)
Lemma lat_raises_in_equatorial_cell cos tan log (lat : Q) (zoom : Z) (nl : Q) :
  norm_lat cos tan log lat = Ok nl ->
  tolerance * calc_c_zoom zoom < nl ->
  nl < calc_c_zoom zoom ->
  (exists d, lat_init cos tan log lat zoom = Ok (calc_c_zoom zoom, 0, d)) /\
  forall fuel,
    get_exact_map_lat cos tan log (S fuel) lat zoom = Raised ZeroDivisionError.
Proof.
  intros Hnl Hlo Hhi.
  pose proof (calc_c_zoom_pos zoom) as HC.
  assert (Hdiv : Py.div nl (calc_c_zoom zoom) = Ok (nl / calc_c_zoom zoom))
    by (apply div_nonzero; lra).
  assert (Hq1 : nl / calc_c_zoom zoom < 1).
  { apply Qlt_shift_div_r; [exact HC | lra]. }
  assert (Hq0 : tolerance < nl / calc_c_zoom zoom).
  { apply Qlt_shift_div_l; [exact HC | lra]. }
  assert (Hfl : Qfloor (nl / calc_c_zoom zoom) = 0%Z).
  { apply Qfloor_unit_interval; [|exact Hq1]. unfold tolerance in Hq0. lra. }
  assert (Hinit : lat_init cos tan log lat zoom
                  = Ok (calc_c_zoom zoom, 0, nl / calc_c_zoom zoom - 0)).
  { unfold lat_init. rewrite Hnl. cbn. rewrite Hdiv. cbn.
    unfold Py.floordiv1. rewrite Hfl. reflexivity. }
  split; [eauto|].
  intros fuel. unfold get_exact_map_lat. rewrite Hinit. cbn [lat_loop].
  destruct (Qle_bool (Qabs (nl / calc_c_zoom zoom - 0)) tolerance) eqn:E.
  - apply Qle_bool_iff in E.
    rewrite Qabs_pos in E; unfold tolerance in *; lra.
  - unfold lat_body. rewrite div_zero; [reflexivity|reflexivity].
Qed.








(** C5, at the equator.  When [norm_lat 0] is zero, [get_exact_map_lat]
    converges on latitude 0 without entering its loop and returns the
    centre [c], half an image height north of the equator; applied to [c],
    whose normalised latitude is inside the equatorial grid cell, it does
    not return [c] again but raises [ZeroDivisionError]. *)
Theorem solver_not_idempotent_at_equator cos tan log (zoom : Z) (nl0 nl1 : Q) :
  let c := 0 + lat_degrees_per_img cos zoom 0 512 / 2 in
  norm_lat cos tan log 0 = Ok nl0 ->
  nl0 == 0 ->
  norm_lat cos tan log c = Ok nl1 ->
  tolerance * calc_c_zoom zoom < nl1 ->
  nl1 < calc_c_zoom zoom ->
  (forall fuel, get_exact_map_lat cos tan log fuel 0 zoom = Returned (c, 0)) /\
  (forall fuel,
     get_exact_map_lat cos tan log (S fuel) c zoom = Raised ZeroDivisionError).
Proof.
  intros c H0 Hz H1 Hlo Hhi. split.
  - intros fuel.
    pose proof (calc_c_zoom_nonzero zoom) as HC.
    assert (Hq : nl0 / calc_c_zoom zoom == 0) by (rewrite Hz; field; exact HC).
    unfold get_exact_map_lat, lat_init. rewrite H0. cbn.
    rewrite (div_nonzero nl0 _ HC). cbn.
    unfold Py.floordiv1. rewrite (Qfloor_comp _ _ Hq).
    change (Qfloor 0) with 0%Z.
    assert (Ht : Qle_bool (Qabs (nl0 / calc_c_zoom zoom - inject_Z 0)) tolerance
                 = true).
    { apply Qle_bool_iff. change (inject_Z 0) with 0.
      assert (E : nl0 / calc_c_zoom zoom - 0 == 0) by (rewrite Hq; ring).
      rewrite E. discriminate. }
    destruct fuel; cbn [lat_loop]; rewrite Ht; reflexivity.
  - exact (proj2 (lat_raises_in_equatorial_cell cos tan log c zoom nl1 H1 Hlo Hhi)).
Qed.

(** Instance of C5: latitude 0 at zoom 17. *)
Lemma solver_not_idempotent_at_equator_witness :
  let c := 0 + lat_degrees_per_img Standin.cos 17 0 512 / 2 in
  (forall fuel,
     get_exact_map_lat Standin.cos Standin.tan Standin.log fuel 0 17
     = Returned (c, 0)) /\
  (forall fuel,
     get_exact_map_lat Standin.cos Standin.tan Standin.log (S fuel) c 17
     = Raised ZeroDivisionError).
Proof.
  apply (solver_not_idempotent_at_equator Standin.cos Standin.tan Standin.log 17
           (standin_norm_lat 0)
           (standin_norm_lat (0 + lat_degrees_per_img Standin.cos 17 0 512 / 2)));
    vm_compute; reflexivity.
Defined.

(** ** The rasteriser *)

Lemma inject_Z_nonzero (z : Z) : z <> 0%Z -> ~ inject_Z z == 0.
Proof.
  intros Hz H. change 0 with (inject_Z 0) in H.
  now apply (proj1 (inject_Z_injective _ _)) in H.
Qed.

(** The float coordinates that [obj_to_mask] computes for the vertices of a
    polygon, in closed form. *)
Lemma gps_to_pixels_value cos (p : list (Q * Q))
    (exact_map_lat exact_map_long : Q) (zoom size : Z) (lat long : Q) :
  get_polygon_center p = Ok (lat, long) ->
  size <> 0%Z ->
  ~ cos (angle_lat lat) == 0 ->
  let top := exact_map_lat + lat_degrees_per_img cos zoom exact_map_lat size / 2 in
  let left := exact_map_long - long_degrees_per_img zoom exact_map_long size / 2 in
  exists coords,
    gps_to_pixels cos p exact_map_lat exact_map_long zoom size = Ok coords /\
    Forall2 (fun v xy =>
               fst xy == (fst v - left) / long_degrees_per_pixel zoom exact_map_long /\
               exists y, snd xy = Some y /\
                 y == (top - snd v) / lat_degrees_per_pixel cos zoom lat)
            p coords.
Proof.
  intros Hc Hsize Hcos top left.
  pose proof (calc_c_zoom_nonzero zoom) as HC.
  pose proof (inject_Z_nonzero size Hsize) as Hs.
  assert (Hx : ~ long_degrees_per_img zoom long size == 0).
  { unfold long_degrees_per_img, long_degrees_per_pixel. intros H.
    apply Qmult_integral in H as [H|H]; [|contradiction].
    apply HC. rewrite <- (Qmult_div_r (calc_c_zoom zoom) 512) by discriminate.
    rewrite H. ring. }
  assert (Hy : ~ lat_degrees_per_img cos zoom lat size == 0).
  { unfold lat_degrees_per_img, lat_degrees_per_pixel. intros H.
    apply Qmult_integral in H as [H|H]; [|contradiction].
    apply Qmult_integral in H as [H|H]; [|contradiction].
    apply HC. rewrite <- (Qmult_div_r (calc_c_zoom zoom) 512) by discriminate.
    rewrite H. ring. }
  unfold gps_to_pixels. rewrite Hc. cbn.
  rewrite (div_nonzero _ _ Hx). cbn.
  unfold np_truediv.
  destruct (Qeq_bool (lat_degrees_per_img cos zoom lat size) 0) eqn:E;
    [apply Qeq_bool_iff in E; contradiction|].
  eexists. split; [reflexivity|].
  apply Forall2_fmap_r, Forall_Forall2_diag, Forall_forall.
  intros v _. cbn. split.
  - subst left. unfold long_degrees_per_img, long_degrees_per_pixel.
    field. auto.
  - eexists. split; [reflexivity|].
    subst top. unfold lat_degrees_per_img, lat_degrees_per_pixel.
    field. auto.
Qed.

(** C6, as the code has it.  For a polygon with bounding-box centre
    [(lat, long)], a nonzero [size] and a nonzero cosine at [lat],
    [obj_to_mask] computes for each vertex [x = (v_long - left) /
    long_degrees_per_pixel] and [y = (top - v_lat) / lat_degrees_per_pixel],
    where [top] and [left] are the tile centre plus, respectively minus,
    half the image span taken at the tile centre, the longitude factor does
    not depend on the position, and the latitude factor is taken at the
    latitude [lat] of the polygon's own bounding-box centre. *)
Theorem gps_to_pixels_formula cos (p : list (Q * Q))
    (exact_map_lat exact_map_long : Q) (zoom size : Z) (lat long : Q) :
  get_polygon_center p = Ok (lat, long) ->
  size <> 0%Z ->
  ~ cos (angle_lat lat) == 0 ->
  let top := exact_map_lat + lat_degrees_per_img cos zoom exact_map_lat size / 2 in
  let left := exact_map_long - long_degrees_per_img zoom exact_map_long size / 2 in
  exists coords,
    gps_to_pixels cos p exact_map_lat exact_map_long zoom size = Ok coords /\
    Forall2 (fun v xy =>
               fst xy == (fst v - left) / long_degrees_per_pixel zoom exact_map_long /\
               exists y, snd xy = Some y /\
                 y == (top - snd v) / lat_degrees_per_pixel cos zoom lat)
            p coords.
Proof. exact (gps_to_pixels_value cos p exact_map_lat exact_map_long zoom size lat long). Qed.

(** Instance of C6: a triangle around latitude 10 on the tile centred at
    the origin, zoom 5, 512 pixels. *)
Lemma gps_to_pixels_formula_witness :
  exists coords,
    gps_to_pixels Standin.cos [(4, 9); (6, 9); (5, 11)] 0 0 5 512 = Ok coords /\
    Forall2 (fun v xy =>
               fst xy == (fst v - (0 - long_degrees_per_img 5 0 512 / 2))
                         / long_degrees_per_pixel 5 0 /\
               exists y, snd xy = Some y /\
                 y == (0 + lat_degrees_per_img Standin.cos 5 0 512 / 2 - snd v)
                      / lat_degrees_per_pixel Standin.cos 5 (20 # 2))
            [(4, 9); (6, 9); (5, 11)] coords.
Proof.
  refine (gps_to_pixels_formula Standin.cos [(4, 9); (6, 9); (5, 11)] 0 0 5 512
            (20 # 2) (10 # 2) _ _ _).
  - vm_compute. reflexivity.
  - discriminate.
  - vm_compute. discriminate.
Defined.

(** C6 as stated fails on that triangle: the [y] that the code computes for
    its first vertex is not the one obtained with the latitude factor taken
    at the tile centre. *)
Lemma gps_to_pixels_not_at_tile_center :
  match gps_to_pixels Standin.cos [(4, 9); (6, 9); (5, 11)] 0 0 5 512 with
  | Ok ((x, Some y) :: _) =>
      x == fst (spec_pixel Standin.cos 0 0 5 512 (4, 9)) /\
      ~ y == snd (spec_pixel Standin.cos 0 0 5 512 (4, 9))
  | _ => False
  end.
Proof.
  vm_compute. split; [reflexivity|discriminate].
Qed.

(** ** Degenerate rings *)

Lemma get_polygon_center_nonempty (v : Q * Q) (vs : list (Q * Q)) :
  exists lat long, get_polygon_center (v :: vs) = Ok (lat, long).
Proof. destruct v as [long0 lat0]. cbn. eauto. Qed.

Lemma paint_has_nonzero drawContours (size : Z) (coords : list (Z * Z)) :
  has_nonzero (paint drawContours size coords) <->
  exists x y, (0 <= x < size)%Z /\ (0 <= y < size)%Z /\
    drawContours size coords x y = true.
Proof.
  unfold has_nonzero, paint. rewrite Exists_exists. split.
  - intros (row & Hrow & Hex).
    apply list_elem_of_fmap in Hrow as (y & -> & Hy).
    apply Exists_exists in Hex as (v & Hv & Hne).
    apply list_elem_of_fmap in Hv as (x & -> & Hx).
    apply elem_of_seqZ in Hx, Hy.
    exists x, y. repeat split; try lia.
    destruct (drawContours size coords x y); [reflexivity|congruence].
  - intros (x & y & Hx & Hy & Hd).
    exists ((fun x => if drawContours size coords x y then 255%Z else 0%Z)
              <$> seqZ 0 size). split.
    + apply list_elem_of_fmap. exists y. split; [reflexivity|].
      apply elem_of_seqZ. lia.
    + apply Exists_exists. exists 255%Z. split; [|discriminate].
      apply list_elem_of_fmap. exists x. rewrite Hd.
      split; [reflexivity|]. apply elem_of_seqZ. lia.
Qed.

Lemma gps_to_pixels_returns cos (p : list (Q * Q)) (lat_t long_t : Q)
    (zoom size : Z) :
  p <> [] -> size <> 0%Z ->
  exists coords,
    gps_to_pixels cos p lat_t long_t zoom size = Ok coords /\
    length coords = length p.
Proof.
  intros Hp Hsize. destruct p as [|v vs]; [contradiction|].
  destruct (get_polygon_center_nonempty v vs) as (lat & long & Hc).
  pose proof (calc_c_zoom_nonzero zoom) as HC.
  pose proof (inject_Z_nonzero size Hsize) as Hs.
  assert (Hx : ~ long_degrees_per_img zoom long size == 0).
  { unfold long_degrees_per_img, long_degrees_per_pixel. intros H.
    apply Qmult_integral in H as [H|H]; [|contradiction].
    apply HC. rewrite <- (Qmult_div_r (calc_c_zoom zoom) 512) by discriminate.
    rewrite H. ring. }
  unfold gps_to_pixels. rewrite Hc. cbn [mbind result_bind Py.bind].
  rewrite (div_nonzero _ _ Hx). cbn [mbind result_bind Py.bind].
  eexists. split; [reflexivity|]. now rewrite length_fmap.
Qed.

(** What [obj_to_mask] returns, degenerate ring or not. *)
Lemma obj_to_mask_paints cos drawContours (p : list (Q * Q))
    (lat_t long_t : Q) (zoom size : Z) :
  p <> [] ->
  (0 < size)%Z ->
  exists coords ring,
    gps_to_pixels cos p lat_t long_t zoom size = Ok coords /\
    ring = (fun v => (astype_int32 (fst v), np_astype_int32 (snd v))) <$> coords /\
    length ring = length p /\
    obj_to_mask cos drawContours p lat_t long_t zoom size
    = Ok (paint drawContours size ring).
Proof.
  intros Hp Hsize.
  destruct (gps_to_pixels_returns cos p lat_t long_t zoom size Hp) as (coords & Hc & Hl);
    [lia|].
  exists coords. eexists. split; [exact Hc|]. split; [reflexivity|].
  split; [now rewrite length_fmap|].
  unfold obj_to_mask. rewrite Hc. cbn [mbind result_bind Py.bind].
  destruct (size <? 0)%Z eqn:E; [apply Z.ltb_lt in E; lia|reflexivity].
Qed.




(** The same holds for every cosine and every rasteriser that paints the
    vertices of its contour: the three vertices of the ring fall on pixel
    [(320, 320)], and that pixel is painted. *)
Lemma astype_int32_integer (q : Q) (z : Z) :
  q == inject_Z z -> (int32_min <= z < 2 ^ 31)%Z -> astype_int32 q = z.
Proof.
  intros Hq Hz. unfold astype_int32.
  assert (E : Z.quot (Qnum q) (Zpos (Qden q)) = z).
  { unfold Qeq in Hq. cbn in Hq. rewrite Z.mul_1_r in Hq. rewrite Hq.
    apply Z.quot_mul. discriminate. }
  rewrite E.
  destruct (int32_min <=? z)%Z eqn:E1; [|apply Z.leb_gt in E1; lia].
  destruct (z <? 2 ^ 31)%Z eqn:E2; [reflexivity|apply Z.ltb_ge in E2; lia].
Qed.

Lemma point_ring_is_painted cos drawContours :
  Proper (Qeq ==> Qeq) cos ->
  ~ cos (angle_lat 50) == 0 ->
  paints_vertices drawContours ->
  exists m,
    obj_to_mask cos drawContours Sample.point_ring 50 30 17 640 = Ok m /\
    has_nonzero m.
Proof.
  intros Hproper Hcos Hpaint.
  assert (Hcos' : ~ cos (angle_lat (100 # 2)) == 0).
  { intros H. apply Hcos. rewrite <- H. apply Hproper. reflexivity. }
  destruct (gps_to_pixels_value cos Sample.point_ring 50 30 17 640 (100 # 2) (60 # 2))
    as (coords & Hc & Hf); [reflexivity|discriminate|exact Hcos'|].
  destruct (obj_to_mask_paints cos drawContours Sample.point_ring 50 30 17 640)
    as (coords' & ring & Hc' & Hr & _ & Hm); [discriminate|reflexivity|].
  assert (coords' = coords) by congruence. subst coords'.
  exists (paint drawContours 640 ring). split; [exact Hm|].
  apply paint_has_nonzero. exists 320%Z, 320%Z.
  split; [lia|]. split; [lia|].
  apply Hpaint; [|lia|lia].
  unfold Sample.point_ring in Hf.
  apply Forall2_cons_inv_l in Hf as (xy & coords1 & (Hx & y & Hy & Hyv) & _ & ->).
  rewrite Hr, fmap_cons. cbn [fst snd] in *.
  assert (Ex : astype_int32 xy.1 = 320%Z).
  { apply astype_int32_integer; [|unfold int32_min; lia].
    rewrite Hx. unfold long_degrees_per_img, long_degrees_per_pixel.
    pose proof (calc_c_zoom_nonzero 17). field. auto. }
  assert (Ey : np_astype_int32 xy.2 = 320%Z).
  { rewrite Hy. cbn. apply astype_int32_integer; [|unfold int32_min; lia].
    rewrite Hyv. unfold lat_degrees_per_img, lat_degrees_per_pixel.
    pose proof (calc_c_zoom_nonzero 17).
    rewrite (Hproper (angle_lat (100 # 2)) (angle_lat 50)) by reflexivity.
    field. auto. }
  rewrite Ex, Ey. apply list_elem_of_here.
Qed.

Lemma on_segment_start (a b : Z * Z) : Standin.on_segment a b a = true.
Proof.
  unfold Standin.on_segment.
  repeat (apply andb_true_intro; split);
    first [apply Z.eqb_eq; ring | apply Z.leb_le; lia].
Qed.

Lemma edges_starts (contour : list (Z * Z)) : (Standin.edges contour).*1 = contour.
Proof.
  destruct contour as [|v vs]; [reflexivity|].
  unfold Standin.edges. apply fst_zip.
  rewrite length_app. cbn. lia.
Qed.

Lemma standin_paints_vertices : paints_vertices Standin.drawContours.
Proof.
  intros size ring x y Hin Hx Hy. unfold Standin.drawContours.
  apply andb_true_intro. split.
  - repeat (apply andb_true_intro; split);
      first [apply Z.leb_le; lia | apply Z.ltb_lt; lia].
  - apply orb_true_intro. left. apply existsb_exists.
    rewrite <- (edges_starts ring) in Hin.
    apply list_elem_of_fmap in Hin as (e & He & Hin).
    exists e. split; [now apply list_elem_of_In|].
    rewrite <- He. apply on_segment_start.
Qed.

(** ** File-level deduplication *)

(** C3, at two overlapping masks of one tile with ordinals 2 and 10: in
    whichever order the directory lists them, the mask with the smaller
    ordinal, [hill_2], is removed and [hill_10] is kept, because the
    suffixes are compared as strings and ["10" > "2"] is false. *)
Theorem remove_masks_compares_strings :
  str_gt "10" "2" = false /\
  Sample.kept_after [Sample.hill_2; Sample.hill_10]
  = Some (None, Some Sample.corner) /\
  Sample.kept_after [Sample.hill_10; Sample.hill_2]
  = Some (None, Some Sample.corner).
Proof.
  repeat split; vm_compute; reflexivity.
Qed.

Lemma compare_body_removed_by (f1 f2 : string * list (list Z))
    (dir : gmap string (list (list Z))) :
  compare_body f1 dir f2
  = match removed_by f1 f2 with
    | Some rem_path => delete rem_path dir
    | None => dir
    end.
Proof.
  unfold compare_body, removed_by. destruct f1 as [file_1 mask_1], f2 as [file_2 mask_2].
  cbn [fst snd].
  destruct (negb (String.eqb file_1 file_2) && and_any mask_1 mask_2); [|reflexivity].
  destruct (bool_decide (map_of file_1 = map_of file_2)); reflexivity.
Qed.

Lemma inner_loop_lookup (f1 : string * list (list Z))
    (masks : list (string * list (list Z))) (dir : gmap string (list (list Z)))
    (file : string) :
  foldl (compare_body f1) dir masks !! file
  = if bool_decide (Exists (fun f2 => removed_by f1 f2 = Some file) masks)
    then None else dir !! file.
Proof.
  revert dir. induction masks as [|f2 masks IH]; intros dir; cbn [foldl].
  - rewrite bool_decide_eq_false_2; [reflexivity|]. intros H. inversion H.
  - rewrite IH, compare_body_removed_by.
    destruct (bool_decide (Exists (fun f2 => removed_by f1 f2 = Some file) masks))
      eqn:E.
    + apply bool_decide_eq_true_1 in E.
      rewrite bool_decide_eq_true_2; [reflexivity|]. now right.
    + apply bool_decide_eq_false_1 in E.
      destruct (removed_by f1 f2) as [r|] eqn:R.
      * destruct (decide (r = file)) as [->|Hne].
        -- rewrite lookup_delete_eq.
           rewrite bool_decide_eq_true_2; [reflexivity|]. now left.
        -- rewrite lookup_delete_ne by exact Hne.
           rewrite bool_decide_eq_false_2; [reflexivity|].
           intros H. apply Exists_cons in H as [H|H]; [congruence|contradiction].
      * rewrite bool_decide_eq_false_2; [reflexivity|].
        intros H. apply Exists_cons in H as [H|H]; [congruence|contradiction].
Qed.

Lemma outer_loop_lookup (masks outer : list (string * list (list Z)))
    (dir : gmap string (list (list Z))) (file : string) :
  foldl (fun dir f1 => foldl (compare_body f1) dir masks) dir outer !! file
  = if bool_decide
         (Exists (fun f1 => Exists (fun f2 => removed_by f1 f2 = Some file) masks)
                 outer)
    then None else dir !! file.
Proof.
  revert dir. induction outer as [|f1 outer IH]; intros dir; cbn [foldl].
  - rewrite bool_decide_eq_false_2; [reflexivity|]. intros H. inversion H.
  - rewrite IH, inner_loop_lookup.
    destruct (bool_decide (Exists (fun f1 => Exists (fun f2 => removed_by f1 f2 = Some file) masks) outer)) eqn:E.
    + apply bool_decide_eq_true_1 in E.
      rewrite bool_decide_eq_true_2; [reflexivity|]. now right.
    + apply bool_decide_eq_false_1 in E.
      destruct (bool_decide (Exists (fun f2 => removed_by f1 f2 = Some file) masks)) eqn:E1.
      * apply bool_decide_eq_true_1 in E1.
        rewrite bool_decide_eq_true_2; [reflexivity|]. now left.
      * apply bool_decide_eq_false_1 in E1.
        rewrite bool_decide_eq_false_2; [reflexivity|].
        intros H. apply Exists_cons in H as [H|H]; contradiction.
Qed.

(** What the file-level deduplication leaves: a file is gone exactly when
    some comparison of two loaded masks chose it, and every other file is
    as it was.  The masks compared are those loaded at the start, so a
    file already removed still takes part in the later comparisons. *)
Lemma remove_masks_lookup (files : list string)
    (dir dir' : gmap string (list (list Z)))
    (masks : list (string * list (list Z))) (file : string) :
  load_masks files dir = Ok masks ->
  remove_masks_with_ovelapping_pixels files dir = Ok dir' ->
  dir' !! file
  = if bool_decide
         (Exists (fun f1 => Exists (fun f2 => removed_by f1 f2 = Some file) masks)
                 masks)
    then None else dir !! file.
Proof.
  intros Hl. unfold remove_masks_with_ovelapping_pixels. rewrite Hl.
  cbn [mbind result_bind Py.bind]. intros [= <-]. apply outer_loop_lookup.
Qed.

(** In particular, of two loaded masks with different names, the same
    first four name fields and a common nonzero bit in some pixel, the one
    whose suffix is the greater string is removed. *)
Lemma remove_masks_removes_greater_string (files : list string)
    (dir dir' : gmap string (list (list Z)))
    (masks : list (string * list (list Z))) (f1 f2 : string * list (list Z)) :
  load_masks files dir = Ok masks ->
  remove_masks_with_ovelapping_pixels files dir = Ok dir' ->
  f1 ∈ masks -> f2 ∈ masks ->
  fst f1 <> fst f2 ->
  and_any (snd f1) (snd f2) = true ->
  map_of (fst f1) = map_of (fst f2) ->
  str_gt (mask_num (fst f1)) (mask_num (fst f2)) = true ->
  dir' !! fst f1 = None.
Proof.
  intros Hl Hr H1 H2 Hne Hand Hmap Hgt.
  rewrite (remove_masks_lookup files dir dir' masks (fst f1) Hl Hr).
  rewrite bool_decide_eq_true_2; [reflexivity|].
  apply Exists_exists. exists f1. split; [exact H1|].
  apply Exists_exists. exists f2. split; [exact H2|].
  unfold removed_by.
  assert (String.eqb (fst f1) (fst f2) = false) as -> by now apply String.eqb_neq.
  rewrite Hand. cbn. rewrite bool_decide_eq_true_2 by exact Hmap.
  now rewrite Hgt.
Qed.

(** ** Polygon-level deduplication *)

Lemma KML_to_mask_has_no_zoom :
  global_int KML_to_mask_globals "zoom" = Raise (NameError "zoom").
Proof. vm_compute. reflexivity. Qed.

(** C10.  Run with the globals of the module that defines it,
    [remove_mask_duplicates] raises [NameError] for [zoom] on every
    non-empty list of polygons (each with at least one vertex), whatever
    libm and OpenCV compute: the first rasterisation call is never made,
    no dedup decision is taken and nothing is written back.  The globals
    of [main.py], where [zoom] and [size] are bound, are not consulted. *)
Theorem remove_mask_duplicates_unbound_name cos drawContours
    (v : Q * Q) (vs : list (Q * Q)) (rest : list (list (Q * Q))) :
  KML_to_mask_globals !! "zoom"%string = None /\
  KML_to_mask_globals !! "size"%string = None /\
  main_globals !! "zoom"%string = Some (Int 17) /\
  main_globals !! "size"%string = Some (Int 640) /\
  remove_mask_duplicates cos drawContours KML_to_mask_globals ((v :: vs) :: rest)
  = Raise (NameError "zoom").
Proof.
  split; [vm_compute; reflexivity|].
  split; [vm_compute; reflexivity|].
  split; [vm_compute; reflexivity|].
  split; [vm_compute; reflexivity|].
  unfold remove_mask_duplicates. cbn [for_each]. unfold dedup_body.
  destruct (get_polygon_center_nonempty v vs) as (lat & long & ->).
  cbn [mbind result_bind Py.bind]. rewrite KML_to_mask_has_no_zoom. reflexivity.
Qed.

(** One pass of the outer loop keeps [new_list] or appends [old] to it. *)
Lemma dedup_body_cases cos drawContours (G : gmap string value)
    (new_list : list (list (Q * Q))) (old : list (Q * Q))
    (new_list' : list (list (Q * Q))) :
  dedup_body cos drawContours G new_list old = Ok new_list' ->
  new_list' = new_list \/ new_list' = new_list ++ [old].
Proof.
  unfold dedup_body.
  destruct (get_polygon_center old) as [[lat long]|e]; cbn; [|discriminate].
  destruct (global_int G "zoom") as [zoom|e]; cbn; [|discriminate].
  destruct (global_int G "size") as [size|e]; cbn; [|discriminate].
  destruct (obj_to_mask cos drawContours old lat long zoom size) as [m|e]; cbn;
    [|discriminate].
  destruct (for_each _ false new_list) as [[|]|e]; cbn; [| |discriminate];
    intros [= <-]; auto.
Qed.

Lemma for_each_dedup_subset cos drawContours (G : gmap string value)
    (l acc new_list : list (list (Q * Q))) :
  for_each (dedup_body cos drawContours G) acc l = Ok new_list ->
  forall p, p ∈ new_list -> p ∈ acc \/ p ∈ l.
Proof.
  revert acc. induction l as [|old l IH]; intros acc; cbn [for_each].
  - intros [= <-] p Hp. now left.
  - destruct (dedup_body cos drawContours G acc old) as [acc'|e] eqn:E;
      [|discriminate].
    intros H p Hp. destruct (IH acc' H p Hp) as [Hin|Hin].
    + destruct (dedup_body_cases _ _ _ _ _ _ E) as [-> | ->].
      * now left.
      * apply elem_of_app in Hin as [Hin|Hin]; [now left|].
        apply list_elem_of_singleton in Hin as ->. right. left.
    + right. now right.
Qed.

(** The half of C4 that holds: whenever [remove_mask_duplicates] returns,
    every polygon of the new list is a polygon of the old list. *)
Lemma remove_mask_duplicates_subset cos drawContours (G : gmap string value)
    (old_list new_list : list (list (Q * Q))) :
  remove_mask_duplicates cos drawContours G old_list = Ok new_list ->
  forall p, p ∈ new_list -> p ∈ old_list.
Proof.
  unfold remove_mask_duplicates. destruct old_list as [|first rest]; [discriminate|].
  intros H p Hp.
  destruct (for_each_dedup_subset _ _ _ _ _ _ H p Hp) as [Hin|Hin]; [|exact Hin].
  apply list_elem_of_singleton in Hin as ->. left.
Qed.

(** Once a polygon of [new_list] overlaps, [overlap] stays set. *)
Lemma overlap_stays cos drawContours (G : gmap string value) (lat long : Q)
    (old_mask : list (list Z)) (l : list (list (Q * Q))) (b : bool) :
  for_each (overlap_body cos drawContours G lat long old_mask) true l = Ok b ->
  b = true.
Proof.
  induction l as [|new l IH]; cbn [for_each]; [congruence|].
  destruct (overlap_body cos drawContours G lat long old_mask true new)
    as [b'|e] eqn:E; [|discriminate].
  assert (b' = true) as ->; [|exact IH].
  unfold overlap_body in E.
  destruct (global_int G "zoom") as [zoom|e]; cbn in E; [|discriminate].
  destruct (global_int G "size") as [size|e]; cbn in E; [|discriminate].
  destruct (obj_to_mask cos drawContours new lat long zoom size) as [m|e];
    cbn in E; [|discriminate].
  destruct (logical_and_any old_mask m); congruence.
Qed.

(** A polygon already kept, whose mask on its own tile is not all zero,
    is found to overlap itself. *)
Lemma overlap_with_itself cos drawContours (G : gmap string value)
    (zoom size : Z) (lat long : Q) (old : list (Q * Q)) (old_mask : list (list Z))
    (l : list (list (Q * Q))) (b0 b : bool) :
  global_int G "zoom" = Ok zoom ->
  global_int G "size" = Ok size ->
  obj_to_mask cos drawContours old lat long zoom size = Ok old_mask ->
  logical_and_any old_mask old_mask = true ->
  old ∈ l ->
  for_each (overlap_body cos drawContours G lat long old_mask) b0 l = Ok b ->
  b = true.
Proof.
  intros Gz Gs Hm Hself Hin. revert b0.
  induction l as [|new l IH]; intros b0; [inversion Hin|].
  cbn [for_each].
  destruct (overlap_body cos drawContours G lat long old_mask b0 new)
    as [b'|e] eqn:E; [|discriminate].
  apply elem_of_cons in Hin as [<-|Hin].
  - unfold overlap_body in E. rewrite Gz, Gs in E. cbn in E.
    rewrite Hm in E. cbn in E. rewrite Hself in E. injection E as <-.
    apply overlap_stays.
  - apply (IH Hin).
Qed.

(** The other half of C4, where it holds: when every polygon of the old
    list has a nonzero pixel on the tile centred on itself, no polygon
    occurs twice in the new list. *)
Lemma remove_mask_duplicates_NoDup cos drawContours (G : gmap string value)
    (zoom size : Z) (old_list new_list : list (list (Q * Q))) :
  global_int G "zoom" = Ok zoom ->
  global_int G "size" = Ok size ->
  (forall p lat long m,
     p ∈ old_list ->
     get_polygon_center p = Ok (lat, long) ->
     obj_to_mask cos drawContours p lat long zoom size = Ok m ->
     logical_and_any m m = true) ->
  remove_mask_duplicates cos drawContours G old_list = Ok new_list ->
  NoDup new_list.
Proof.
  intros Gz Gs Hself. unfold remove_mask_duplicates.
  destruct old_list as [|first rest]; [discriminate|].
  assert (Hacc : NoDup [first]) by (apply NoDup_singleton).
  revert Hacc Hself. generalize (first :: rest) as l. generalize [first] as acc.
  intros acc l. revert acc.
  induction l as [|old l IH]; intros acc Hacc Hself; cbn [for_each].
  - now intros [= <-].
  - destruct (dedup_body cos drawContours G acc old) as [acc'|e] eqn:E;
      [|discriminate].
    apply IH; [|intros p lat long m Hp; apply Hself; now right].
    pose proof E as E'. unfold dedup_body in E'.
    destruct (get_polygon_center old) as [[lat long]|e] eqn:Hc; cbn in E';
      [|discriminate].
    rewrite Gz, Gs in E'. cbn in E'.
    destruct (obj_to_mask cos drawContours old lat long zoom size) as [m|e] eqn:Hm;
      cbn in E'; [|discriminate].
    destruct (for_each (overlap_body cos drawContours G lat long m) false acc)
      as [b|e] eqn:Hb; cbn in E'; [|discriminate].
    injection E' as <-. destruct b; [exact Hacc|].
    apply NoDup_app. split; [exact Hacc|]. split; [|apply NoDup_singleton].
    intros p Hp Hp'. apply list_elem_of_singleton in Hp' as ->.
    assert (false = true); [|discriminate].
    eapply (overlap_with_itself cos drawContours G zoom size lat long old m acc);
      eauto.
    eapply Hself; eauto. left.
Qed.







(** ** Tile-polygon assignment *)

Lemma paint_binary drawContours (size : Z) (coords : list (Z * Z)) :
  binary_mask (paint drawContours size coords).
Proof.
  unfold binary_mask, paint.
  apply Forall_fmap, Forall_forall. intros y _. cbn.
  apply Forall_fmap, Forall_forall. intros x _. cbn.
  destruct (drawContours size coords x y); auto.
Qed.

Lemma obj_to_mask_binary cos drawContours (p : list (Q * Q)) (lat long : Q)
    (zoom size : Z) (m : list (list Z)) :
  obj_to_mask cos drawContours p lat long zoom size = Ok m -> binary_mask m.
Proof.
  unfold obj_to_mask.
  destruct (gps_to_pixels cos p lat long zoom size) as [coords|e]; cbn;
    [|discriminate].
  destruct (size <? 0)%Z; [discriminate|].
  intros [= <-]. apply paint_binary.
Qed.












(** ** Bounding boxes *)

Lemma Qmin_cases (x y : Q) : Qmin x y = x \/ Qmin x y = y.
Proof. unfold Qmin, GenericMinMax.gmin. destruct (x ?= y); auto. Qed.

Lemma Qmax_cases (x y : Q) : Qmax x y = x \/ Qmax x y = y.
Proof. unfold Qmax, GenericMinMax.gmax. destruct (x ?= y); auto. Qed.

Lemma foldl_Qmin_spec (l : list Q) (a : Q) :
  foldl Qmin a l <= a /\
  Forall (fun x => foldl Qmin a l <= x) l /\
  foldl Qmin a l ∈ a :: l.
Proof.
  revert a. induction l as [|x l IH]; intros a; cbn [foldl].
  - split; [apply Qle_refl|]. split; [constructor|left].
  - destruct (IH (Qmin a x)) as (H1 & H2 & H3).
    pose proof (Q.le_min_l a x) as Ha. pose proof (Q.le_min_r a x) as Hx.
    split; [eapply Qle_trans; eauto|].
    split; [constructor; [eapply Qle_trans; eauto|exact H2]|].
    apply elem_of_cons in H3 as [H3|H3].
    + rewrite H3. destruct (Qmin_cases a x) as [-> | ->]; [left|right; left].
    + right. now right.
Qed.

Lemma foldl_Qmax_spec (l : list Q) (a : Q) :
  a <= foldl Qmax a l /\
  Forall (fun x => x <= foldl Qmax a l) l /\
  foldl Qmax a l ∈ a :: l.
Proof.
  revert a. induction l as [|x l IH]; intros a; cbn [foldl].
  - split; [apply Qle_refl|]. split; [constructor|left].
  - destruct (IH (Qmax a x)) as (H1 & H2 & H3).
    pose proof (Q.le_max_l a x) as Ha. pose proof (Q.le_max_r a x) as Hx.
    split; [eapply Qle_trans; eauto|].
    split; [constructor; [eapply Qle_trans; eauto|exact H2]|].
    apply elem_of_cons in H3 as [H3|H3].
    + rewrite H3. destruct (Qmax_cases a x) as [-> | ->]; [left|right; left].
    + right. now right.
Qed.

Lemma get_polygon_bbox_bounds (p : list (Q * Q)) (top left bottom right : Q) :
  get_polygon_bbox p = Ok (top, left, bottom, right) ->
  Forall (fun v => left <= fst v <= right /\ bottom <= snd v <= top) p /\
  left ∈ p.*1 /\ right ∈ p.*1 /\ bottom ∈ p.*2 /\ top ∈ p.*2.
Proof.
  destruct p as [|[long0 lat0] vs]; [discriminate|].
  cbn [get_polygon_bbox]. intros [= <- <- <- <-].
  destruct (foldl_Qmin_spec (vs.*1) long0) as (L1 & L2 & L3).
  destruct (foldl_Qmin_spec (vs.*2) lat0) as (B1 & B2 & B3).
  destruct (foldl_Qmax_spec (vs.*1) long0) as (R1 & R2 & R3).
  destruct (foldl_Qmax_spec (vs.*2) lat0) as (T1 & T2 & T3).
  split; [|rewrite !fmap_cons; cbn [fst snd]; auto].
  constructor; [cbn; auto|].
  rewrite Forall_fmap in L2, B2, R2, T2.
  rewrite Forall_forall in L2, B2, R2, T2 |- *.
  intros v Hv. specialize (L2 v Hv). specialize (B2 v Hv).
  specialize (R2 v Hv). specialize (T2 v Hv). cbn in *. auto.
Qed.

(** X1.  The box that [get_polygon_bbox] returns is the tight one:
    every vertex lies between [left] and [right] and between [bottom] and
    [top], and each of the four bounds is a coordinate of some vertex. *)
Theorem get_polygon_bbox_tight (p : list (Q * Q)) (top left bottom right : Q) :
  get_polygon_bbox p = Ok (top, left, bottom, right) ->
  Forall (fun v => left <= fst v <= right /\ bottom <= snd v <= top) p /\
  left ∈ p.*1 /\ right ∈ p.*1 /\ bottom ∈ p.*2 /\ top ∈ p.*2.
Proof. exact (get_polygon_bbox_bounds p top left bottom right). Qed.

(** Instance of X1: a triangle. *)
Lemma get_polygon_bbox_tight_witness :
  Forall (fun v => 4 <= fst v <= 6 /\ 9 <= snd v <= 11) [(4, 9); (6, 9); (5, 11)] /\
  4 ∈ [(4, 9); (6, 9); (5, 11)].*1 /\ 6 ∈ [(4, 9); (6, 9); (5, 11)].*1 /\
  9 ∈ [(4, 9); (6, 9); (5, 11)].*2 /\ 11 ∈ [(4, 9); (6, 9); (5, 11)].*2.
Proof.
  apply (get_polygon_bbox_tight [(4, 9); (6, 9); (5, 11)] 11 4 9 6).
  reflexivity.
Defined.

Lemma bound_unique_min (l l' : list Q) (m m' : Q) :
  (forall x, x ∈ l <-> x ∈ l') ->
  Forall (fun x => m <= x) l -> m ∈ l ->
  Forall (fun x => m' <= x) l' -> m' ∈ l' ->
  m' == m.
Proof.
  intros Hs H1 H2 H1' H2'.
  rewrite Forall_forall in H1, H1'.
  apply Qle_antisym; [apply H1', Hs, H2 | apply H1, Hs, H2'].
Qed.

Lemma bound_unique_max (l l' : list Q) (m m' : Q) :
  (forall x, x ∈ l <-> x ∈ l') ->
  Forall (fun x => x <= m) l -> m ∈ l ->
  Forall (fun x => x <= m') l' -> m' ∈ l' ->
  m' == m.
Proof.
  intros Hs H1 H2 H1' H2'.
  rewrite Forall_forall in H1, H1'.
  apply Qle_antisym; [apply H1, Hs, H2' | apply H1', Hs, H2].
Qed.

(** X2.  The centre that [get_polygon_center] returns depends on the set
    of vertices only: neither the vertex at which the ring starts, nor its
    orientation, nor a repeated vertex (the closing one of a KML ring)
    changes it. *)
Theorem get_polygon_center_of_vertex_set (p p' : list (Q * Q)) (lat long : Q) :
  (forall v, v ∈ p <-> v ∈ p') ->
  get_polygon_center p = Ok (lat, long) ->
  exists lat' long',
    get_polygon_center p' = Ok (lat', long') /\ lat' == lat /\ long' == long.
Proof.
  intros Hs Hc. unfold get_polygon_center in *.
  destruct (get_polygon_bbox p) as [[[[top left] bottom] right]|e] eqn:Hb;
    [|discriminate].
  cbn in Hc. injection Hc as <- <-.
  assert (Hne : p' <> []).
  { intros ->. destruct p as [|v vs]; [discriminate|].
    specialize (Hs v). destruct Hs as [Hs _].
    specialize (Hs ltac:(left)). inversion Hs. }
  destruct (get_polygon_bbox p') as [[[[top' left'] bottom'] right']|e] eqn:Hb'.
  2:{ destruct p' as [|[? ?] ?]; [contradiction|discriminate]. }
  cbn. do 2 eexists. split; [reflexivity|].
  apply get_polygon_bbox_bounds in Hb as (F & L & R & B & T).
  apply get_polygon_bbox_bounds in Hb' as (F' & L' & R' & B' & T').
  assert (Hs1 : forall x, x ∈ p.*1 <-> x ∈ p'.*1).
  { intros x. rewrite !list_elem_of_fmap.
    split; intros (v & -> & Hv); exists v; (split; [reflexivity|]); now apply Hs. }
  assert (Hs2 : forall x, x ∈ p.*2 <-> x ∈ p'.*2).
  { intros x. rewrite !list_elem_of_fmap.
    split; intros (v & -> & Hv); exists v; (split; [reflexivity|]); now apply Hs. }
  assert (Et : top' == top).
  { apply (bound_unique_max (p.*2) (p'.*2)); auto;
      apply Forall_fmap; eapply Forall_impl; eauto; cbn; tauto. }
  assert (Eb : bottom' == bottom).
  { apply (bound_unique_min (p.*2) (p'.*2)); auto;
      apply Forall_fmap; eapply Forall_impl; eauto; cbn; tauto. }
  assert (El : left' == left).
  { apply (bound_unique_min (p.*1) (p'.*1)); auto;
      apply Forall_fmap; eapply Forall_impl; eauto; cbn; tauto. }
  assert (Er : right' == right).
  { apply (bound_unique_max (p.*1) (p'.*1)); auto;
      apply Forall_fmap; eapply Forall_impl; eauto; cbn; tauto. }
  split; [rewrite Et, Eb|rewrite El, Er]; reflexivity.
Qed.

(** Instance of X2: a closed ring and the same ring without its closing
    vertex, walked the other way round. *)
Lemma get_polygon_center_of_vertex_set_witness :
  exists lat' long',
    get_polygon_center [(5, 11); (6, 9); (4, 9)] = Ok (lat', long') /\
    lat' == 20 # 2 /\ long' == 10 # 2.
Proof.
  refine (get_polygon_center_of_vertex_set
            [(4, 9); (6, 9); (5, 11); (4, 9)] [(5, 11); (6, 9); (4, 9)]
            (20 # 2) (10 # 2) _ _).
  - intros v. rewrite !elem_of_cons, !elem_of_nil. tauto.
  - reflexivity.
Defined.

(** ** The grid cell of a longitude *)





(** ** What the latitude loop returns *)

(** The loop keeps [diff] equal to the distance between the fractional
    grid index of the current [lat] and [n_map_lat_int]. *)
Lemma lat_body_residual cos tan log (C m0 lat diff lat' diff' : Q) :
  lat_body cos tan log C m0 lat diff = Ok (lat', diff') ->
  exists nl', norm_lat cos tan log lat' = Ok nl' /\ diff' = nl' / C - m0.
Proof.
  unfold lat_body.
  destruct (Py.div diff m0) as [a|e1]; cbn; [|discriminate].
  destruct (Py.div (a * cos (angle_lat lat)) lat) as [b|e2]; cbn; [|discriminate].
  destruct (norm_lat cos tan log lat) as [nl|e3]; cbn; [|discriminate].
  destruct (norm_lat cos tan log (lat * (1 - b * nl))) as [nl'|e4] eqn:E4; cbn;
    [|discriminate].
  unfold Py.div. destruct (Qeq_bool C 0); cbn; [discriminate|].
  intros [= <- <-]. eauto.
Qed.

Lemma lat_loop_residual cos tan log (fuel : nat) (C m0 lat diff lat' : Q) :
  (exists nl, norm_lat cos tan log lat = Ok nl /\ diff = nl / C - m0) ->
  lat_loop cos tan log fuel C m0 lat diff = Returned lat' ->
  exists nl', norm_lat cos tan log lat' = Ok nl' /\
    Qabs (nl' / C - m0) <= tolerance.
Proof.
  revert lat diff. induction fuel as [|fuel IH]; intros lat diff (nl & Hnl & Hd);
    cbn [lat_loop].
  - destruct (Qle_bool (Qabs diff) tolerance) eqn:E; [|discriminate].
    intros [= <-]. exists nl. split; [exact Hnl|].
    rewrite <- Hd. now apply Qle_bool_iff.
  - destruct (Qle_bool (Qabs diff) tolerance) eqn:E.
    + intros [= <-]. exists nl. split; [exact Hnl|].
      rewrite <- Hd. now apply Qle_bool_iff.
    + destruct (lat_body cos tan log C m0 lat diff) as [[lat1 diff1]|e] eqn:B;
        [|discriminate].
      apply IH. eapply lat_body_residual, B.
Qed.

(** X5.  Whenever [get_exact_map_lat] returns, after any number of
    iterations, the index it returns is the floor of the fractional grid
    index of the latitude it was given, and the centre it returns lies half
    the height of a 512-pixel image north of a latitude [lat'] whose
    fractional grid index is within [1e-9] of that index. *)
Theorem get_exact_map_lat_returns_grid_line cos tan log (fuel : nat) (lat : Q)
    (zoom : Z) (center m0 : Q) :
  get_exact_map_lat cos tan log fuel lat zoom = Returned (center, m0) ->
  exists nl lat' nl',
    norm_lat cos tan log lat = Ok nl /\
    m0 = inject_Z (Qfloor (nl / calc_c_zoom zoom)) /\
    norm_lat cos tan log lat' = Ok nl' /\
    Qabs (nl' / calc_c_zoom zoom - m0) <= tolerance /\
    center = lat' + lat_degrees_per_img cos zoom lat' 512 / 2.
Proof.
  unfold get_exact_map_lat, lat_init.
  destruct (norm_lat cos tan log lat) as [nl|e] eqn:Hnl; cbn; [|discriminate].
  rewrite (div_nonzero nl _ (calc_c_zoom_nonzero zoom)). cbn.
  destruct (lat_loop cos tan log fuel (calc_c_zoom zoom)
              (floordiv1 (nl / calc_c_zoom zoom)) lat
              (nl / calc_c_zoom zoom - floordiv1 (nl / calc_c_zoom zoom)))
    as [lat'| |] eqn:L; [|discriminate|discriminate].
  intros [= <- <-].
  destruct (lat_loop_residual cos tan log fuel _ _ _ _ _
              (ex_intro _ nl (conj Hnl eq_refl)) L) as (nl' & Hnl' & Hd).
  exists nl, lat', nl'. auto.
Qed.

(** Instance of X5: from a latitude a little above a grid line the loop
    returns after one iteration. *)
Lemma get_exact_map_lat_returns_grid_line_witness :
  get_exact_map_lat Standin.cos Standin.tan Standin.log 0 SampleLoad.near_grid_line 17 = Running /\
  exists nl lat' nl',
    norm_lat Standin.cos Standin.tan Standin.log SampleLoad.near_grid_line = Ok nl /\
    inject_Z 1 = inject_Z (Qfloor (nl / calc_c_zoom 17)) /\
    norm_lat Standin.cos Standin.tan Standin.log lat' = Ok nl' /\
    Qabs (nl' / calc_c_zoom 17 - inject_Z 1) <= tolerance /\
    fst (returned_of (0, 0)
           (get_exact_map_lat Standin.cos Standin.tan Standin.log 1 SampleLoad.near_grid_line 17))
    = lat' + lat_degrees_per_img Standin.cos 17 lat' 512 / 2.
Proof.
  split; [vm_compute; reflexivity|].
  apply (get_exact_map_lat_returns_grid_line Standin.cos Standin.tan Standin.log 1
           SampleLoad.near_grid_line 17).
  vm_compute. reflexivity.
Defined.

(** ** The map of a point of interest *)









(** X7.  [get_map_for_POI] raises exactly what [norm_lat] raises on its
    latitude and returns in every other case: neither a longitude of zero
    nor a latitude in the grid cell next to the equator, where the exact
    solver divides by zero, is an error for it. *)
Theorem get_map_for_POI_raises_as_norm_lat cos tan log (lat long : Q) (zoom size : Z) :
  match norm_lat cos tan log lat with
  | Raise e => get_map_for_POI cos tan log lat long zoom size = Raise e
  | Ok _ => exists r, get_map_for_POI cos tan log lat long zoom size = Ok r
  end.
Proof.
  unfold get_map_for_POI, norm_lat, angle_lat. fold (calc_c_zoom zoom).
  pose proof (calc_c_zoom_nonzero zoom) as HC.
  rewrite (div_nonzero long _ HC). cbn [mbind result_bind Py.bind].
  destruct (Py.div 1 _) as [sec|e]; cbn [mbind result_bind Py.bind]; [|reflexivity].
  destruct (math_log log _) as [l|e]; cbn [mbind result_bind Py.bind]; [|reflexivity].
  rewrite (div_nonzero _ _ HC). cbn [mbind result_bind Py.bind]. eauto.
Qed.

(** ** The mask of a polygon *)

(** X8.  Whenever [obj_to_mask] returns, the mask has [size] rows of
    [size] pixels each, and every pixel is 0 or 255. *)
Theorem obj_to_mask_shape cos drawContours (p : list (Q * Q)) (lat_t long_t : Q)
    (zoom size : Z) (m : list (list Z)) :
  obj_to_mask cos drawContours p lat_t long_t zoom size = Ok m ->
  (0 <= size)%Z /\
  length m = Z.to_nat size /\
  Forall (fun row => length row = Z.to_nat size) m /\
  binary_mask m.
Proof.
  intros H. pose proof (obj_to_mask_binary _ _ _ _ _ _ _ _ H) as Hb.
  unfold obj_to_mask in H.
  destruct (gps_to_pixels cos p lat_t long_t zoom size) as [coords|e]; cbn in H;
    [|discriminate].
  destruct (size <? 0)%Z eqn:E; [discriminate|]. apply Z.ltb_ge in E.
  injection H as <-. unfold paint.
  split; [exact E|]. split; [now rewrite length_fmap, length_seqZ|].
  split; [|exact Hb].
  apply Forall_fmap, Forall_forall. intros y _. cbn.
  now rewrite length_fmap, length_seqZ.
Qed.

(** Instance of X8: a ring on a tile of 16 pixels. *)
Lemma obj_to_mask_shape_witness :
  let m := value_of [] (obj_to_mask Standin.cos Standin.drawContours
                          Sample.small_square 50 30 17 16) in
  (0 <= 16)%Z /\ length m = Z.to_nat 16 /\
  Forall (fun row => length row = Z.to_nat 16) m /\ binary_mask m.
Proof.
  apply (obj_to_mask_shape Standin.cos Standin.drawContours Sample.small_square
           50 30 17 16).
  vm_compute. reflexivity.
Defined.

Lemma gps_to_pixels_size_zero cos (p : list (Q * Q)) (lat_t long_t : Q) (zoom : Z) :
  p <> [] -> gps_to_pixels cos p lat_t long_t zoom 0 = Raise ZeroDivisionError.
Proof.
  intros Hp. destruct p as [|v vs]; [contradiction|].
  destruct (get_polygon_center_nonempty v vs) as (lat & long & Hc).
  unfold gps_to_pixels. rewrite Hc. cbn [mbind result_bind Py.bind].
  rewrite div_zero; [reflexivity|].
  unfold long_degrees_per_img. change (inject_Z 0) with 0. ring.
Qed.

(** X9.  When [obj_to_mask] returns and when it raises.  It returns exactly
    for a polygon with at least one vertex and a positive [size]; without
    a vertex it raises [ValueError], with a vertex and [size = 0] it raises
    [ZeroDivisionError] instead of returning an empty mask, and with a
    negative [size] it raises [ValueError]. *)
Theorem obj_to_mask_domain cos drawContours (p : list (Q * Q)) (lat_t long_t : Q)
    (zoom size : Z) :
  (p = [] ->
   obj_to_mask cos drawContours p lat_t long_t zoom size = Raise ValueError) /\
  (p <> [] -> size = 0%Z ->
   obj_to_mask cos drawContours p lat_t long_t zoom size = Raise ZeroDivisionError) /\
  (p <> [] -> (size < 0)%Z ->
   obj_to_mask cos drawContours p lat_t long_t zoom size = Raise ValueError) /\
  (p <> [] -> (0 < size)%Z ->
   exists m, obj_to_mask cos drawContours p lat_t long_t zoom size = Ok m).
Proof.
  repeat split.
  - intros ->. reflexivity.
  - intros Hp ->. unfold obj_to_mask.
    now rewrite (gps_to_pixels_size_zero cos p lat_t long_t zoom Hp).
  - intros Hp Hs.
    destruct (gps_to_pixels_returns cos p lat_t long_t zoom size Hp) as (coords & Hc & _);
      [lia|].
    unfold obj_to_mask. rewrite Hc. cbn [mbind result_bind Py.bind].
    destruct (size <? 0)%Z eqn:E; [reflexivity|apply Z.ltb_ge in E; lia].
  - intros Hp Hs.
    destruct (obj_to_mask_paints cos drawContours p lat_t long_t zoom size Hp Hs)
      as (coords & ring & _ & _ & _ & Hm).
    eauto.
Qed.

(** Instance of X9: a ring on a tile of size 0. *)
Lemma obj_to_mask_domain_witness :
  obj_to_mask Standin.cos Standin.drawContours Sample.point_ring 50 30 17 0
  = Raise ZeroDivisionError.
Proof.
  destruct (obj_to_mask_domain Standin.cos Standin.drawContours Sample.point_ring
              50 30 17 0) as (_ & H & _).
  apply H; [discriminate|reflexivity].
Defined.




(** ** What the polygon-level deduplication keeps *)

Lemma for_each_dedup_sublist cos drawContours (G : gmap string value)
    (l acc new_list : list (list (Q * Q))) :
  for_each (dedup_body cos drawContours G) acc l = Ok new_list ->
  exists kept, new_list = acc ++ kept /\ kept `sublist_of` l.
Proof.
  revert acc. induction l as [|old l IH]; intros acc; cbn [for_each].
  - intros [= <-]. exists []. split; [now rewrite app_nil_r|constructor].
  - destruct (dedup_body cos drawContours G acc old) as [acc'|e] eqn:E;
      [|discriminate].
    intros H. destruct (IH acc' H) as (kept & -> & Hs).
    destruct (dedup_body_cases _ _ _ _ _ _ E) as [-> | ->].
    + exists kept. split; [reflexivity|]. now apply sublist_cons.
    + exists (old :: kept). split; [now rewrite <- app_assoc|].
      now apply sublist_skip.
Qed.

(** X11.  Whenever [remove_mask_duplicates] returns, the new list is the
    first polygon of the old list followed by polygons of the old list in
    their old order. *)
Theorem remove_mask_duplicates_keeps_order cos drawContours (G : gmap string value)
    (old_list new_list : list (list (Q * Q))) :
  remove_mask_duplicates cos drawContours G old_list = Ok new_list ->
  exists first rest kept,
    old_list = first :: rest /\
    new_list = first :: kept /\
    kept `sublist_of` old_list.
Proof.
  unfold remove_mask_duplicates. destruct old_list as [|first rest]; [discriminate|].
  intros H. destruct (for_each_dedup_sublist _ _ _ _ _ _ H) as (kept & -> & Hs).
  exists first, rest, kept. auto.
Qed.

(** Instance of X11: a square and a point inside it, on tiles of 16
    pixels: the point is dropped. *)
Lemma remove_mask_duplicates_keeps_order_witness :
  exists first rest kept,
    [Sample.small_square; Sample.point_ring] = first :: rest /\
    [Sample.small_square] = first :: kept /\
    kept `sublist_of` [Sample.small_square; Sample.point_ring].
Proof.
  apply (remove_mask_duplicates_keeps_order Standin.cos Standin.drawContours
           SampleMasks.small_globals).
  vm_compute. reflexivity.
Defined.

Lemma overlap_body_cases cos drawContours (G : gmap string value) (zoom size : Z)
    (lat long : Q) (old_mask : list (list Z)) (b b' : bool) (new : list (Q * Q)) :
  global_int G "zoom" = Ok zoom ->
  global_int G "size" = Ok size ->
  overlap_body cos drawContours G lat long old_mask b new = Ok b' ->
  exists new_mask,
    obj_to_mask cos drawContours new lat long zoom size = Ok new_mask /\
    b' = (if logical_and_any old_mask new_mask then true else b).
Proof.
  intros Gz Gs. unfold overlap_body. rewrite Gz, Gs. cbn [mbind result_bind Py.bind].
  destruct (obj_to_mask cos drawContours new lat long zoom size) as [m|e]; cbn;
    [|discriminate].
  intros [= <-]. eauto.
Qed.

(** The flag [overlap] is set only by a polygon of [new_list] whose mask
    meets [old_mask]. *)
Lemma overlap_found cos drawContours (G : gmap string value) (zoom size : Z)
    (lat long : Q) (old_mask : list (list Z)) (l : list (list (Q * Q))) :
  global_int G "zoom" = Ok zoom ->
  global_int G "size" = Ok size ->
  for_each (overlap_body cos drawContours G lat long old_mask) false l = Ok true ->
  exists new new_mask,
    new ∈ l /\
    obj_to_mask cos drawContours new lat long zoom size = Ok new_mask /\
    logical_and_any old_mask new_mask = true.
Proof.
  intros Gz Gs. induction l as [|new l IH]; cbn [for_each]; [discriminate|].
  destruct (overlap_body cos drawContours G lat long old_mask false new)
    as [b'|e] eqn:E; [|discriminate].
  destruct (overlap_body_cases _ _ _ _ _ _ _ _ _ _ _ Gz Gs E) as (m & Hm & ->).
  destruct (logical_and_any old_mask m) eqn:A.
  - intros _. exists new, m. split; [left|]. auto.
  - intros H. destruct (IH H) as (new' & m' & Hin & Hm' & A').
    exists new', m'. split; [now right|]. auto.
Qed.

Lemma for_each_dedup_covers cos drawContours (G : gmap string value) (zoom size : Z)
    (l acc new_list : list (list (Q * Q))) :
  global_int G "zoom" = Ok zoom ->
  global_int G "size" = Ok size ->
  for_each (dedup_body cos drawContours G) acc l = Ok new_list ->
  forall old, old ∈ l ->
    old ∈ new_list \/
    exists new lat long old_mask new_mask,
      new ∈ new_list /\
      get_polygon_center old = Ok (lat, long) /\
      obj_to_mask cos drawContours old lat long zoom size = Ok old_mask /\
      obj_to_mask cos drawContours new lat long zoom size = Ok new_mask /\
      logical_and_any old_mask new_mask = true.
Proof.
  intros Gz Gs. revert acc. induction l as [|x l IH]; intros acc; cbn [for_each].
  - intros _ old Hin. inversion Hin.
  - destruct (dedup_body cos drawContours G acc x) as [acc'|e] eqn:E;
      [|discriminate].
    intros H old Hin. apply elem_of_cons in Hin as [->|Hin]; [|eapply IH; eauto].
    destruct (for_each_dedup_sublist _ _ _ _ _ _ H) as (kept & -> & _).
    unfold dedup_body in E.
    destruct (get_polygon_center x) as [[lat long]|e] eqn:Hc; cbn in E; [|discriminate].
    rewrite Gz, Gs in E. cbn in E.
    destruct (obj_to_mask cos drawContours x lat long zoom size) as [m|e] eqn:Hm;
      cbn in E; [|discriminate].
    destruct (for_each (overlap_body cos drawContours G lat long m) false acc)
      as [[|]|e] eqn:Hb; cbn in E; [| |discriminate]; injection E as <-.
    + right. destruct (overlap_found _ _ _ _ _ _ _ _ _ Gz Gs Hb) as (new & nm & Hin & Hnm & A).
      exists new, lat, long, m, nm. split; [apply elem_of_app; now left|]. auto.
    + left. apply elem_of_app. left. apply elem_of_app. right. left.
Qed.

(** X12.  Nothing is dropped without a reason: whenever
    [remove_mask_duplicates] returns, every polygon of the old list is in
    the new list, or its mask on the tile centred on itself meets, on that
    tile, the mask of a polygon of the new list. *)
Theorem remove_mask_duplicates_covers cos drawContours (G : gmap string value)
    (zoom size : Z) (old_list new_list : list (list (Q * Q))) :
  global_int G "zoom" = Ok zoom ->
  global_int G "size" = Ok size ->
  remove_mask_duplicates cos drawContours G old_list = Ok new_list ->
  forall old, old ∈ old_list ->
    old ∈ new_list \/
    exists new lat long old_mask new_mask,
      new ∈ new_list /\
      get_polygon_center old = Ok (lat, long) /\
      obj_to_mask cos drawContours old lat long zoom size = Ok old_mask /\
      obj_to_mask cos drawContours new lat long zoom size = Ok new_mask /\
      logical_and_any old_mask new_mask = true.
Proof.
  intros Gz Gs. unfold remove_mask_duplicates.
  destruct old_list as [|first rest]; [discriminate|].
  apply for_each_dedup_covers; assumption.
Qed.

(** Instance of X12: the point dropped above meets the square. *)
Lemma remove_mask_duplicates_covers_witness :
  Sample.point_ring ∈ [Sample.small_square] \/
  exists new lat long old_mask new_mask,
    new ∈ [Sample.small_square] /\
    get_polygon_center Sample.point_ring = Ok (lat, long) /\
    obj_to_mask Standin.cos Standin.drawContours Sample.point_ring lat long 17 16
    = Ok old_mask /\
    obj_to_mask Standin.cos Standin.drawContours new lat long 17 16 = Ok new_mask /\
    logical_and_any old_mask new_mask = true.
Proof.
  refine (remove_mask_duplicates_covers Standin.cos Standin.drawContours
            SampleMasks.small_globals 17 16 [Sample.small_square; Sample.point_ring]
            [Sample.small_square] _ _ _ Sample.point_ring _).
  - vm_compute. reflexivity.
  - vm_compute. reflexivity.
  - vm_compute. reflexivity.
  - right. left.
Defined.

Lemma overlap_none cos drawContours (G : gmap string value) (zoom size : Z)
    (lat long : Q) (old_mask : list (list Z)) (l : list (list (Q * Q))) :
  global_int G "zoom" = Ok zoom ->
  global_int G "size" = Ok size ->
  for_each (overlap_body cos drawContours G lat long old_mask) false l = Ok false ->
  forall new, new ∈ l ->
    exists new_mask,
      obj_to_mask cos drawContours new lat long zoom size = Ok new_mask /\
      logical_and_any old_mask new_mask = false.
Proof.
  intros Gz Gs. induction l as [|x l IH]; cbn [for_each].
  - intros _ new Hin. inversion Hin.
  - destruct (overlap_body cos drawContours G lat long old_mask false x)
      as [b'|e] eqn:E; [|discriminate].
    destruct (overlap_body_cases _ _ _ _ _ _ _ _ _ _ _ Gz Gs E) as (m & Hm & ->).
    destruct (logical_and_any old_mask m) eqn:A.
    + intros H. apply overlap_stays in H. discriminate.
    + intros H new Hin. apply elem_of_cons in Hin as [->|Hin]; [eauto|].
      now apply IH.
Qed.

Lemma for_each_dedup_apart cos drawContours (G : gmap string value) (zoom size : Z)
    (l acc new_list : list (list (Q * Q))) :
  global_int G "zoom" = Ok zoom ->
  global_int G "size" = Ok size ->
  (forall (i j : nat) a b, (i < j)%nat -> acc !! i = Some a -> acc !! j = Some b ->
     apart cos drawContours zoom size a b) ->
  for_each (dedup_body cos drawContours G) acc l = Ok new_list ->
  forall (i j : nat) a b, (i < j)%nat ->
    new_list !! i = Some a -> new_list !! j = Some b ->
    apart cos drawContours zoom size a b.
Proof.
  intros Gz Gs. revert acc. induction l as [|old l IH]; intros acc Hacc;
    cbn [for_each].
  - now intros [= <-].
  - destruct (dedup_body cos drawContours G acc old) as [acc'|e] eqn:E;
      [|discriminate].
    apply IH. unfold dedup_body in E.
    destruct (get_polygon_center old) as [[lat long]|e] eqn:Hc; cbn in E; [|discriminate].
    rewrite Gz, Gs in E. cbn in E.
    destruct (obj_to_mask cos drawContours old lat long zoom size) as [m|e] eqn:Hm;
      cbn in E; [|discriminate].
    destruct (for_each (overlap_body cos drawContours G lat long m) false acc)
      as [[|]|e] eqn:Hb; cbn in E; [| |discriminate]; injection E as <-;
      [exact Hacc|].
    intros i j a b Hij Ha Hb'.
    destruct (decide (j < length acc)%nat) as [Hj|Hj].
    + rewrite lookup_app_l in Ha, Hb' by lia. eauto.
    + rewrite lookup_app_r in Hb' by lia.
      destruct (j - length acc)%nat eqn:D; [|now destruct n].
      injection Hb' as <-.
      assert (Hi : (i < length acc)%nat) by lia.
      rewrite lookup_app_l in Ha by exact Hi.
      apply list_elem_of_lookup_2 in Ha.
      destruct (overlap_none _ _ _ _ _ _ _ _ _ Gz Gs Hb a Ha) as (ma & Hma & A).
      exists lat, long, m, ma. auto.
Qed.

(** X13.  The polygons kept lie apart: whenever [remove_mask_duplicates]
    returns, of any two polygons of the new list, the mask of the later
    one, on the tile centred on it, has no nonzero pixel in common with the
    mask of the earlier one on that tile. *)
Theorem remove_mask_duplicates_kept_apart cos drawContours (G : gmap string value)
    (zoom size : Z) (old_list new_list : list (list (Q * Q))) :
  global_int G "zoom" = Ok zoom ->
  global_int G "size" = Ok size ->
  remove_mask_duplicates cos drawContours G old_list = Ok new_list ->
  forall (i j : nat) a b, (i < j)%nat ->
    new_list !! i = Some a -> new_list !! j = Some b ->
    exists lat long mask_b mask_a,
      get_polygon_center b = Ok (lat, long) /\
      obj_to_mask cos drawContours b lat long zoom size = Ok mask_b /\
      obj_to_mask cos drawContours a lat long zoom size = Ok mask_a /\
      logical_and_any mask_b mask_a = false.
Proof.
  intros Gz Gs. unfold remove_mask_duplicates.
  destruct old_list as [|first rest]; [discriminate|].
  apply (for_each_dedup_apart cos drawContours G zoom size); [assumption..|].
  intros i j a b Hij Ha Hb. destruct j as [|j]; [lia|]. cbn in Hb. discriminate.
Qed.

(** Instance of X13: two squares one degree apart, on tiles of 16
    pixels: both are kept. *)
Lemma remove_mask_duplicates_kept_apart_witness :
  exists lat long mask_b mask_a,
    get_polygon_center SampleMasks.far_square = Ok (lat, long) /\
    obj_to_mask Standin.cos Standin.drawContours SampleMasks.far_square lat long 17 16
    = Ok mask_b /\
    obj_to_mask Standin.cos Standin.drawContours Sample.small_square lat long 17 16
    = Ok mask_a /\
    logical_and_any mask_b mask_a = false.
Proof.
  refine (remove_mask_duplicates_kept_apart Standin.cos Standin.drawContours
            SampleMasks.small_globals 17 16
            [Sample.small_square; SampleMasks.far_square]
            [Sample.small_square; SampleMasks.far_square] _ _ _
            0%nat 1%nat Sample.small_square SampleMasks.far_square _ _ _).
  - vm_compute. reflexivity.
  - vm_compute. reflexivity.
  - vm_compute. reflexivity.
  - lia.
  - reflexivity.
  - reflexivity.
Defined.

(** ** The files that [make_masks] writes *)

Lemma ended_normally {A B} (r : A * option B) : snd r = None -> r = (fst r, None).
Proof. destruct r as [a b]. cbn. now intros ->. Qed.

Lemma to_int_not_nil (z : Z) :
  Z.to_int z <> Decimal.Pos Decimal.Nil /\ Z.to_int z <> Decimal.Neg Decimal.Nil.
Proof.
  assert (E : Z.to_int z = Decimal.norm (Z.to_int z)).
  { rewrite <- DecimalZ.to_of. now rewrite DecimalZ.of_to. }
  rewrite E. destruct (Z.to_int z) as [d|d]; cbn.
  - split; [|discriminate]. intros [= H]. now apply DecimalFacts.unorm_nonnil in H.
  - destruct (Decimal.nzhead d); split; discriminate.
Qed.

Lemma format_int_inj (a b : Z) : format_int a = format_int b -> a = b.
Proof.
  unfold format_int. intros H.
  destruct (to_int_not_nil a) as [A1 A2]. destruct (to_int_not_nil b) as [B1 B2].
  pose proof (NilZero.isi _ A1 A2) as Ia. pose proof (NilZero.isi _ B1 B2) as Ib.
  rewrite H in Ia. rewrite Ia in Ib. injection Ib as Ib.
  now apply DecimalZ.to_int_inj.
Qed.

Lemma append_inj_l (a b s : string) : (a +:+ s = b +:+ s)%string -> a = b.
Proof.
  intros H.
  assert (L : forall x y : string,
            String.length (x +:+ y) = (String.length x + String.length y)%nat).
  { intros x y. induction x as [|c x IH]; [reflexivity|].
    change (String c x +:+ y)%string with (String c (x +:+ y)). cbn. now rewrite IH. }
  revert b H. induction a as [|c a IH]; intros [|c' b] H.
  - reflexivity.
  - apply (f_equal String.length) in H. rewrite (L (String c' b) s) in H.
    change ("" +:+ s)%string with s in H. cbn in H. lia.
  - apply (f_equal String.length) in H. rewrite (L (String c a) s) in H.
    change ("" +:+ s)%string with s in H. cbn in H. lia.
  - change (String c (a +:+ s) = String c' (b +:+ s))%string in H.
    injection H as -> H. f_equal. now apply IH.
Qed.

Lemma png_name_inj (name : string) (a b : Z) :
  png_name name a = png_name name b -> a = b.
Proof.
  unfold png_name. intros H.
  apply String.app_inj, String.app_inj in H.
  apply append_inj_l in H. now apply format_int_inj.
Qed.

Lemma assign_body_step cos drawContours (m : map_rec) (st st' : assignment)
    (p : list (Q * Q)) :
  assign_body cos drawContours m st p = Ok st' ->
  (hit_masks cos drawContours m [p] = [] /\ st' = st) \/
  (exists mask,
     hit_masks cos drawContours m [p] = [mask] /\
     st' = Assignment
             (<[name m := next_ordinal (masks_saved st) (name m)]> (masks_saved st))
             (<[png_name (name m) (next_ordinal (masks_saved st) (name m)) := mask]>
                (MASKS_DIR st))).
Proof.
  unfold assign_body, hit_masks. cbn [omap list_omap].
  destruct (obj_to_mask cos drawContours p (exact_map_lat m) (exact_map_long m)
              (zoom m) (size m)) as [mask_png|e]; cbn [mbind result_bind Py.bind];
    [|discriminate].
  destruct (np_sum mask_png =? 0)%Z; cbn [negb].
  - intros [= <-]. now left.
  - intros [= <-]. right. eexists. split; reflexivity.
Qed.

Lemma hit_masks_cons cos drawContours (m : map_rec) (p : list (Q * Q))
    (l : list (list (Q * Q))) :
  hit_masks cos drawContours m (p :: l)
  = hit_masks cos drawContours m [p] ++ hit_masks cos drawContours m l.
Proof.
  unfold hit_masks. cbn [omap list_omap].
  destruct (obj_to_mask cos drawContours p _ _ _ _) as [mk|e]; [|reflexivity].
  destruct (np_sum mk =? 0)%Z; reflexivity.
Qed.

(** X14.  One pass over [obj_list] for a tile that ends without an
    exception numbers its hits consecutively from the tile's next ordinal
    and in the order of [obj_list]: the [k]-th hit is in the file
    [name_hill_(start + k).png], no hit overwrites another, and every file
    with another name is as it was. *)
Theorem make_masks_numbers_hits cos drawContours (m : map_rec)
    (obj_list : list (list (Q * Q))) (st st' : assignment) :
  assign_polygons cos drawContours m st obj_list = (st', None) ->
  let start := next_ordinal (masks_saved st) (name m) in
  let hits := hit_masks cos drawContours m obj_list in
  (forall (k : nat) mask, hits !! k = Some mask ->
     MASKS_DIR st' !! png_name (name m) (start + Z.of_nat k) = Some mask) /\
  (forall file,
     (forall k : nat, (k < length hits)%nat ->
        file <> png_name (name m) (start + Z.of_nat k)) ->
     MASKS_DIR st' !! file = MASKS_DIR st !! file) /\
  next_ordinal (masks_saved st') (name m) = (start + Z.of_nat (length hits))%Z.
Proof.
  revert st. induction obj_list as [|p l IH]; intros st; cbn [assign_polygons].
  - intros [= <-]. cbn. repeat split.
    + intros k mask H. discriminate.
    + lia.
  - destruct (assign_body cos drawContours m st p) as [st1|e] eqn:E; [|discriminate].
    intros H. specialize (IH st1 H). cbn zeta in IH. destruct IH as (I1 & I2 & I3).
    rewrite hit_masks_cons. cbn zeta.
    destruct (assign_body_step _ _ _ _ _ _ E) as [[-> ->]|(mask0 & -> & ->)].
    + cbn [app]. auto.
    + cbn [masks_saved MASKS_DIR] in I1, I2, I3.
      assert (Hn : next_ordinal (<[name m := next_ordinal (masks_saved st) (name m)]>
                                   (masks_saved st)) (name m)
                   = (next_ordinal (masks_saved st) (name m) + 1)%Z).
      { unfold next_ordinal at 1. now rewrite lookup_insert_eq. }
      rewrite Hn in I1, I2, I3. cbn [app length].
      remember (next_ordinal (masks_saved st) (name m)) as start eqn:Es. clear Es Hn.
      repeat split.
      * intros [|k] mask Hk; cbn in Hk.
        -- injection Hk as <-. rewrite Z.add_0_r.
           rewrite I2; [apply lookup_insert_eq|].
           intros k _ Heq. apply png_name_inj in Heq. lia.
        -- specialize (I1 k mask Hk).
           replace (start + Z.of_nat (S k))%Z with (start + 1 + Z.of_nat k)%Z by lia.
           exact I1.
      * intros file Hf. rewrite I2.
        -- apply lookup_insert_ne. intros <-. apply (Hf 0%nat); [lia|].
           now rewrite Z.add_0_r.
        -- intros k Hk. replace (start + 1 + Z.of_nat k)%Z with (start + Z.of_nat (S k))%Z by lia.
           apply Hf. lia.
      * rewrite I3. lia.
Qed.


(** Instance of X14: the same square twice on a tile of 16 pixels, from
    an empty store: two hits, numbered 0 and 1. *)
Lemma make_masks_numbers_hits_witness :
  let st' := fst (assign_polygons Standin.cos Standin.drawContours Sample.tile
                    (Assignment ∅ ∅) [Sample.small_square; Sample.small_square]) in
  let start := next_ordinal ∅ (name Sample.tile) in
  let hits := hit_masks Standin.cos Standin.drawContours Sample.tile
                [Sample.small_square; Sample.small_square] in
  (forall (k : nat) mask, hits !! k = Some mask ->
     MASKS_DIR st' !! png_name (name Sample.tile) (start + Z.of_nat k) = Some mask) /\
  (forall file,
     (forall k : nat, (k < length hits)%nat ->
        file <> png_name (name Sample.tile) (start + Z.of_nat k)) ->
     MASKS_DIR st' !! file = (∅ : gmap string (list (list Z))) !! file) /\
  next_ordinal (masks_saved st') (name Sample.tile)
  = (start + Z.of_nat (length hits))%Z.
Proof.
  apply (make_masks_numbers_hits Standin.cos Standin.drawContours Sample.tile
           [Sample.small_square; Sample.small_square] (Assignment ∅ ∅)).
  apply ended_normally. vm_compute. reflexivity.
Defined.

Lemma only_masks_of_refl names dir : only_masks_of names dir dir.
Proof. split; auto. Qed.

Lemma only_masks_of_trans names d1 d2 d3 :
  only_masks_of names d1 d2 -> only_masks_of names d2 d3 ->
  only_masks_of names d1 d3.
Proof.
  intros [A1 A2] [B1 B2]. split; [auto|].
  intros file H. rewrite B2, A2; auto.
Qed.

Lemma only_masks_of_weaken nm names d1 d2 :
  only_masks_of names d1 d2 -> only_masks_of (nm :: names) d1 d2.
Proof.
  intros [A1 A2]. split; [auto|].
  intros file H. apply A2. intros nm' n Hin. apply H. now right.
Qed.

Lemma assign_body_only_masks cos drawContours (m : map_rec) (st st' : assignment)
    (p : list (Q * Q)) :
  assign_body cos drawContours m st p = Ok st' ->
  only_masks_of [name m] (MASKS_DIR st) (MASKS_DIR st').
Proof.
  intros E.
  destruct (assign_body_step _ _ _ _ _ _ E) as [[_ ->]|(mask0 & _ & ->)];
    [apply only_masks_of_refl|].
  cbn [MASKS_DIR]. split.
  - intros file H.
    destruct (decide (file = png_name (name m) (next_ordinal (masks_saved st) (name m))))
      as [->|Hne].
    + rewrite lookup_insert_eq. eauto.
    + now rewrite lookup_insert_ne by congruence.
  - intros file H. apply lookup_insert_ne. intros <-.
    apply (H (name m) (next_ordinal (masks_saved st) (name m))); [left|reflexivity].
Qed.

Lemma assign_polygons_only_masks cos drawContours (m : map_rec)
    (l : list (list (Q * Q))) (st : assignment) :
  only_masks_of [name m] (MASKS_DIR st)
    (MASKS_DIR (fst (assign_polygons cos drawContours m st l))).
Proof.
  revert st. induction l as [|p l IH]; intros st; cbn.
  - apply only_masks_of_refl.
  - destruct (assign_body cos drawContours m st p) as [st'|e] eqn:E; cbn.
    + eapply only_masks_of_trans; [|apply IH].
      eapply assign_body_only_masks, E.
    + apply only_masks_of_refl.
Qed.

Lemma only_masks_of_incl names names' d1 d2 :
  (forall nm, nm ∈ names -> nm ∈ names') ->
  only_masks_of names d1 d2 -> only_masks_of names' d1 d2.
Proof.
  intros Hi [A1 A2]. split; [auto|].
  intros file H. apply A2. intros nm' n Hin. apply H. now apply Hi.
Qed.

Lemma assign_maps_only_masks cos drawContours (map_list : list map_rec)
    (obj_list : list (list (Q * Q))) (st : assignment) :
  only_masks_of (name <$> map_list) (MASKS_DIR st)
    (MASKS_DIR (fst (assign_maps cos drawContours st map_list obj_list))).
Proof.
  revert st. induction map_list as [|m map_list IH]; intros st; cbn.
  - apply only_masks_of_refl.
  - pose proof (assign_polygons_only_masks cos drawContours m obj_list st) as H.
    destruct (assign_polygons cos drawContours m st obj_list) as [st' [e|]]; cbn in *.
    + eapply only_masks_of_incl; [|exact H].
      intros nm Hin. apply list_elem_of_singleton in Hin as ->. left.
    + eapply only_masks_of_trans.
      * eapply only_masks_of_incl; [|exact H].
        intros nm Hin. apply list_elem_of_singleton in Hin as ->. left.
      * apply only_masks_of_weaken, IH.
Qed.

(** X15.  [make_masks] deletes nothing and touches no file but its own:
    whether the run ends normally or with an exception, every file that
    was in [MASKS_DIR] is still there, and every file whose name is not
    [name_hill_n.png] for a tile [name] of [map_list] has its old
    content; masks of an earlier run that this run does not write again
    stay in the directory. *)
Theorem make_masks_touches_only_its_files cos drawContours
    (dir : gmap string (list (list Z))) (map_list : list map_rec)
    (obj_list : list (list (Q * Q))) :
  let dir' := fst (make_masks cos drawContours dir map_list obj_list) in
  (forall file, is_Some (dir !! file) -> is_Some (dir' !! file)) /\
  (forall file,
     (forall m n, m ∈ map_list -> file <> png_name (name m) n) ->
     dir' !! file = dir !! file).
Proof.
  unfold make_masks.
  pose proof (assign_maps_only_masks cos drawContours map_list obj_list
                (Assignment ∅ dir)) as [H1 H2].
  destruct (assign_maps cos drawContours (Assignment ∅ dir) map_list obj_list)
    as [st e]; cbn in *.
  split; [exact H1|].
  intros file Hf. apply H2. intros nm n Hin.
  apply list_elem_of_fmap in Hin as (m & -> & Hm). now apply Hf.
Qed.

(** ** What the file-level deduplication removes *)

Lemma ok_value_of {A} (d : A) (r : result A) : is_ok r = true -> r = Ok (value_of d r).
Proof. destruct r; [reflexivity|discriminate]. Qed.


Lemma load_masks_acc (files : list string) (dir : gmap string (list (list Z)))
    (acc masks : list (string * list (list Z))) :
  for_each (fun masks file =>
              match dir !! file with
              | Some m => Ok (masks ++ [(file, m)])
              | None => Raise FileNotFoundError
              end) acc files = Ok masks ->
  forall f, f ∈ masks <-> f ∈ acc \/ (fst f ∈ files /\ dir !! fst f = Some (snd f)).
Proof.
  revert acc. induction files as [|file files IH]; intros acc; cbn [for_each].
  - intros [= <-] f. split; [auto|]. intros [H|[H _]]; [exact H|inversion H].
  - destruct (dir !! file) as [m|] eqn:D; [|discriminate].
    intros H f. rewrite (IH _ H f), elem_of_app, list_elem_of_singleton, elem_of_cons.
    destruct f as [f0 m0]. cbn [fst snd]. split.
    + intros [[Hf|[= -> ->]]|[Hf Hd]]; [now left|right; auto..].
    + intros [Hf|[[->|Hf] Hd]]; [now left; left| |now right].
      left. right. congruence.
Qed.

(** The masks loaded are those of the listed files. *)
Lemma load_masks_elem (files : list string) (dir : gmap string (list (list Z)))
    (masks : list (string * list (list Z))) :
  load_masks files dir = Ok masks ->
  forall f, f ∈ masks <-> fst f ∈ files /\ dir !! fst f = Some (snd f).
Proof.
  intros H f. rewrite (load_masks_acc files dir [] masks H f).
  split; [intros [Hf|Hf]; [inversion Hf|exact Hf]|auto].
Qed.

Lemma removed_by_Some (f1 f2 : string * list (list Z)) (file : string) :
  removed_by f1 f2 = Some file ->
  fst f1 <> fst f2 /\ and_any (snd f1) (snd f2) = true /\
  map_of (fst f1) = map_of (fst f2) /\
  file = (if str_gt (mask_num (fst f1)) (mask_num (fst f2)) then fst f1 else fst f2).
Proof.
  unfold removed_by.
  destruct (String.eqb (fst f1) (fst f2)) eqn:E; cbn; [discriminate|].
  apply String.eqb_neq in E.
  destruct (and_any (snd f1) (snd f2)); [|discriminate].
  destruct (bool_decide (map_of (fst f1) = map_of (fst f2))) eqn:M; [|discriminate].
  apply bool_decide_eq_true_1 in M. intros [= <-]. auto.
Qed.

(** X16.  The file-level deduplication only removes, and only for a
    reason: whenever it returns, every file left has its old content, and
    every file that is gone is one of two listed files with different
    names, the same first four name fields and masks with a common nonzero
    bit in some pixel. *)
Theorem remove_masks_only_removes_overlapping (files : list string)
    (dir dir' : gmap string (list (list Z))) :
  remove_masks_with_ovelapping_pixels files dir = Ok dir' ->
  (forall file m, dir' !! file = Some m -> dir !! file = Some m) /\
  (forall file m, dir !! file = Some m -> dir' !! file = None ->
     exists file_1 file_2 mask_1 mask_2,
       file_1 ∈ files /\ file_2 ∈ files /\ file_1 <> file_2 /\
       (file = file_1 \/ file = file_2) /\
       dir !! file_1 = Some mask_1 /\ dir !! file_2 = Some mask_2 /\
       map_of file_1 = map_of file_2 /\
       and_any mask_1 mask_2 = true).
Proof.
  intros H. destruct (load_masks files dir) as [masks|e] eqn:L.
  2:{ unfold remove_masks_with_ovelapping_pixels in H. rewrite L in H. discriminate. }
  pose proof (remove_masks_lookup files dir dir' masks) as Hl.
  split.
  - intros file m Hf. rewrite (Hl file L H) in Hf.
    destruct (bool_decide _); [discriminate|exact Hf].
  - intros file m Hd Hf. rewrite (Hl file L H) in Hf.
    destruct (bool_decide _) eqn:E; [|congruence].
    apply bool_decide_eq_true_1 in E.
    apply Exists_exists in E as (f1 & H1 & E).
    apply Exists_exists in E as (f2 & H2 & E).
    apply removed_by_Some in E as (Hne & Ha & Hm & Hfile).
    apply (load_masks_elem files dir masks L) in H1 as [H1 D1], H2 as [H2 D2].
    exists (fst f1), (fst f2), (snd f1), (snd f2).
    repeat split; try assumption.
    destruct (str_gt _ _); auto.
Qed.

(** Instance of X16: the two masks of [Sample.masks_dir]. *)
Lemma remove_masks_only_removes_overlapping_witness :
  let dir' := value_of ∅ (remove_masks_with_ovelapping_pixels
                            [Sample.hill_2; Sample.hill_10] Sample.masks_dir) in
  (forall file m, dir' !! file = Some m -> Sample.masks_dir !! file = Some m) /\
  (forall file m, Sample.masks_dir !! file = Some m -> dir' !! file = None ->
     exists file_1 file_2 mask_1 mask_2,
       file_1 ∈ [Sample.hill_2; Sample.hill_10] /\
       file_2 ∈ [Sample.hill_2; Sample.hill_10] /\ file_1 <> file_2 /\
       (file = file_1 \/ file = file_2) /\
       Sample.masks_dir !! file_1 = Some mask_1 /\
       Sample.masks_dir !! file_2 = Some mask_2 /\
       map_of file_1 = map_of file_2 /\
       and_any mask_1 mask_2 = true).
Proof.
  apply (remove_masks_only_removes_overlapping [Sample.hill_2; Sample.hill_10]
           Sample.masks_dir).
  apply ok_value_of. vm_compute. reflexivity.
Defined.

Lemma elem_of_zip_swap {A B} (l : list A) (k : list B) (a : A) (b : B) :
  (a, b) ∈ zip l k -> (b, a) ∈ zip k l.
Proof.
  revert k. induction l as [|x l IH]; intros [|y k] H; cbn in *;
    try (now inversion H).
  apply elem_of_cons in H as [[= -> ->]|H]; [left|right; now apply IH].
Qed.

Lemma and_any_sym (m1 m2 : list (list Z)) :
  and_any m1 m2 = true -> and_any m2 m1 = true.
Proof.
  unfold and_any, any2. intros H.
  apply existsb_exists in H as ([r1 r2] & Hrr & H). cbn in H.
  apply existsb_exists in H as ([a b] & Hab & H). cbn in H.
  apply (proj2 (list_elem_of_In _ _)) in Hrr, Hab.
  apply existsb_exists. exists (r2, r1).
  split; [apply list_elem_of_In, elem_of_zip_swap, Hrr|]. cbn.
  apply existsb_exists. exists (b, a).
  split; [apply list_elem_of_In, elem_of_zip_swap, Hab|]. cbn.
  now rewrite Z.land_comm.
Qed.

Lemma str_gt_irrefl (s : string) : str_gt s s = false.
Proof.
  unfold str_gt.
  assert (E : String.compare s s = Eq).
  { induction s as [|c s IH]; cbn; [reflexivity|].
    unfold Ascii.compare. now rewrite N.compare_refl. }
  now rewrite E.
Qed.

(** X17.  A tie removes both: of two listed masks with different names,
    the same first four name fields, a common nonzero bit in some pixel
    and equal ordinal suffixes, neither is left.  The first four fields
    hold the latitude and the longitude but not the zoom, so masks of one
    centre at two zoom levels are such a pair. *)
Theorem remove_masks_tie_removes_both (files : list string)
    (dir dir' : gmap string (list (list Z))) (file_1 file_2 : string)
    (mask_1 mask_2 : list (list Z)) :
  remove_masks_with_ovelapping_pixels files dir = Ok dir' ->
  file_1 ∈ files -> file_2 ∈ files -> file_1 <> file_2 ->
  dir !! file_1 = Some mask_1 -> dir !! file_2 = Some mask_2 ->
  and_any mask_1 mask_2 = true ->
  map_of file_1 = map_of file_2 ->
  mask_num file_1 = mask_num file_2 ->
  dir' !! file_1 = None /\ dir' !! file_2 = None.
Proof.
  intros H H1 H2 Hne D1 D2 Ha Hm Hn.
  destruct (load_masks files dir) as [masks|e] eqn:L.
  2:{ unfold remove_masks_with_ovelapping_pixels in H. rewrite L in H. discriminate. }
  assert (M1 : (file_1, mask_1) ∈ masks) by (apply (load_masks_elem files dir masks L); auto).
  assert (M2 : (file_2, mask_2) ∈ masks) by (apply (load_masks_elem files dir masks L); auto).
  assert (R : forall f g mf mg, f <> g -> and_any mf mg = true ->
              map_of f = map_of g -> mask_num f = mask_num g ->
              removed_by (f, mf) (g, mg) = Some g).
  { intros f g mf mg Hfg Hand Hmap Hnum. unfold removed_by. cbn [fst snd].
    assert (String.eqb f g = false) as -> by now apply String.eqb_neq.
    rewrite Hand. cbn. rewrite bool_decide_eq_true_2 by exact Hmap.
    now rewrite Hnum, str_gt_irrefl. }
  split; rewrite (remove_masks_lookup files dir dir' masks _ L H);
    (rewrite bool_decide_eq_true_2; [reflexivity|]).
  - apply Exists_exists. exists (file_2, mask_2). split; [exact M2|].
    apply Exists_exists. exists (file_1, mask_1). split; [exact M1|].
    apply R; auto using and_any_sym.
  - apply Exists_exists. exists (file_1, mask_1). split; [exact M1|].
    apply Exists_exists. exists (file_2, mask_2). split; [exact M2|].
    apply R; auto.
Qed.

(** Instance of X17: masks numbered 0 of one centre at zoom 17 and at
    zoom 18. *)
Lemma remove_masks_tie_removes_both_witness :
  value_of ∅ (remove_masks_with_ovelapping_pixels
                [SampleMasks.zoom_17_hill_0; SampleMasks.zoom_18_hill_0] SampleMasks.two_zooms)
    !! SampleMasks.zoom_17_hill_0 = None /\
  value_of ∅ (remove_masks_with_ovelapping_pixels
                [SampleMasks.zoom_17_hill_0; SampleMasks.zoom_18_hill_0] SampleMasks.two_zooms)
    !! SampleMasks.zoom_18_hill_0 = None.
Proof.
  refine (remove_masks_tie_removes_both
            [SampleMasks.zoom_17_hill_0; SampleMasks.zoom_18_hill_0] SampleMasks.two_zooms _
            SampleMasks.zoom_17_hill_0 SampleMasks.zoom_18_hill_0 Sample.corner Sample.corner
            _ _ _ _ _ _ _ _ _).
  - apply ok_value_of. vm_compute. reflexivity.
  - left.
  - right. left.
  - discriminate.
  - vm_compute. reflexivity.
  - vm_compute. reflexivity.
  - vm_compute. reflexivity.
  - vm_compute. reflexivity.
  - vm_compute. reflexivity.
Defined.


(** ** Loading the maps *)

Lemma gl_map_by_center_missing_key (image : Type)
    (staticmap : list (string * arg) -> attempt image) (lat long zoom size : arg) :
  gl_map_by_center image staticmap [lat; long]
    [("zoom"%string, zoom); ("size"%string, size)]
  = Failure (Builtin TypeError).
Proof. reflexivity. Qed.

Section LoadMapsFacts.

Variables cos tan log : Q -> Q.
Variable Polygons : string -> attempt (list (attempt (list (Q * Q)))).
Variable image : Type.
Variable staticmap : list (string * arg) -> attempt image.

Lemma load_polygon_cases (fuel : nat) (MAP_DIR : string) (zoom size counter : Z)
    (region : string) (st st' : loading image) (polygon : attempt (list (Q * Q)))
    (e : ending) :
  load_polygon cos tan log image staticmap fuel MAP_DIR zoom size counter region
    st polygon = (st', e) ->
  match e with
  | Completed =>
      exists coords, polygon = Success coords /\
        loaded_from fuel zoom cos tan log st st' [coords]
  | _ => st' = st
  end.
Proof.
  unfold load_polygon. destruct polygon as [coords|ex]; [|now intros [= <- <-]].
  destruct (tile_of cos tan log fuel zoom coords) as [[[lat long] name]|ex|] eqn:T;
    [|now intros [= <- <-]..].
  destruct (bool_decide _) eqn:B.
  - apply bool_decide_eq_true_1 in B. intros [= <- <-].
    exists coords. split; [reflexivity|]. repeat split; cbn.
    constructor; [|constructor]. eauto.
  - rewrite gl_map_by_center_missing_key. now intros [= <- <-].
Qed.

Lemma loaded_from_app fuel zoom (st1 st2 st3 : loading image) l1 l2 :
  loaded_from fuel zoom cos tan log st1 st2 l1 ->
  loaded_from fuel zoom cos tan log st2 st3 l2 ->
  loaded_from fuel zoom cos tan log st1 st3 (l1 ++ l2).
Proof.
  intros (A1 & A2 & A3 & A4 & A5) (B1 & B2 & B3 & B4 & B5).
  repeat split; try congruence.
  - rewrite B4, A4. now rewrite app_assoc.
  - apply Forall_app. split; [exact A5|]. now rewrite <- A1.
Qed.

Lemma loaded_from_nil fuel zoom (st : loading image) :
  loaded_from fuel zoom cos tan log st st [].
Proof. repeat split; [now rewrite app_nil_r|constructor]. Qed.

Lemma load_polygons_cases (fuel : nat) (MAP_DIR : string) (zoom size counter : Z)
    (region : string) (l : list (attempt (list (Q * Q)))) (st st' : loading image)
    (e : ending) :
  load_polygons cos tan log image staticmap fuel MAP_DIR zoom size counter region
    st l = (st', e) ->
  exists done,
    loaded_from fuel zoom cos tan log st st' done /\
    (e = Completed -> l = Success <$> done).
Proof.
  revert st. induction l as [|polygon l IH]; intros st; cbn [load_polygons].
  - intros [= <- <-]. exists []. split; [apply loaded_from_nil|reflexivity].
  - destruct (load_polygon cos tan log image staticmap fuel MAP_DIR zoom size counter
                region st polygon) as [st1 e1] eqn:E.
    pose proof (load_polygon_cases _ _ _ _ _ _ _ _ _ _ E) as H.
    destruct e1.
    + destruct H as (coords & -> & H1). intros H2.
      destruct (IH st1 H2) as (done & H3 & H4).
      exists ([coords] ++ done). split; [eapply loaded_from_app; eauto|].
      intros He. cbn. now rewrite (H4 He).
    + intros [= <- <-]. subst st1. exists [].
      split; [apply loaded_from_nil|discriminate].
    + intros [= <- <-]. subst st1. exists [].
      split; [apply loaded_from_nil|discriminate].
Qed.

Lemma load_kmls_cases (fuel : nat) (ANNOT_DIR MAP_DIR : string) (zoom size : Z)
    (kml_files : list string) (counter : Z) (st st' : loading image) (e : ending) :
  load_kmls cos tan log Polygons image staticmap fuel ANNOT_DIR MAP_DIR zoom size
    counter st kml_files = (st', e) ->
  exists done,
    loaded_from fuel zoom cos tan log st st' (concat done) /\
    (e = Completed ->
     Forall2 (fun kml l => Polygons (path_join ANNOT_DIR kml) = Success (Success <$> l))
       kml_files done).
Proof.
  revert counter st. induction kml_files as [|kml kml_files IH]; intros counter st;
    cbn [load_kmls].
  - intros [= <- <-]. exists []. split; [apply loaded_from_nil|constructor].
  - destruct (Polygons (path_join ANNOT_DIR kml)) as [polygons|ex] eqn:P.
    2:{ intros [= <- <-]. exists []. split; [apply loaded_from_nil|discriminate]. }
    destruct (load_polygons cos tan log image staticmap fuel MAP_DIR zoom size counter
                _ st polygons) as [st1 e1] eqn:E.
    destruct (load_polygons_cases _ _ _ _ _ _ _ _ _ _ E) as (done1 & H1 & H2).
    destruct e1.
    + intros H3. destruct (IH _ _ H3) as (done & H4 & H5).
      exists (done1 :: done). split; [cbn; eapply loaded_from_app; eauto|].
      intros He. constructor; [rewrite P; f_equal; now apply H2|auto].
    + intros [= <- <-]. exists [done1]. cbn. rewrite app_nil_r.
      split; [exact H1|discriminate].
    + intros [= <- <-]. exists [done1]. cbn. rewrite app_nil_r.
      split; [exact H1|discriminate].
Qed.

(** X18.  [read_kml_and_load_maps] never downloads a map.  However the
    run ends, it has saved no image; when it ends normally, the map list
    that it pickles is the one that it read ([[]] without the file), the
    object list is made of all the polygons of all the [.kml] files in
    their order, and the tile image of every one of them was in [MAP_DIR]
    before the run. *)
Theorem read_kml_and_load_maps_never_downloads (fuel : nat)
    (ANNOT_DIR MAP_DIR : string) (zoom size : Z) (pickled : option (list map_entry))
    (annot_files map_dir : list string) (e : ending) (images : list (string * image))
    (written : option (list map_entry * list (list (Q * Q)))) :
  read_kml_and_load_maps cos tan log Polygons image staticmap fuel ANNOT_DIR MAP_DIR
    zoom size pickled annot_files map_dir = (e, images, written) ->
  images = [] /\
  match written with
  | None => e <> Completed
  | Some (new_map_list, new_obj_list) =>
      e = Completed /\
      new_map_list = default [] pickled /\
      (exists done,
         Forall2 (fun kml l =>
                    Polygons (path_join ANNOT_DIR kml) = Success (Success <$> l))
           (filter (fun file => endswith file ".kml" = true) annot_files) done /\
         new_obj_list = concat done) /\
      Forall (fun coords =>
                exists lat long name,
                  tile_of cos tan log fuel zoom coords = Returned (lat, long, name) /\
                  (name +:+ ".jpg")%string ∈ map_dir) new_obj_list
  end.
Proof.
  unfold read_kml_and_load_maps.
  destruct (load_kmls _ _ _ _ _ _ _ _ _ _ _ _ _ _) as [st e1] eqn:E.
  destruct (load_kmls_cases _ _ _ _ _ _ _ _ _ _ E) as (done & (H1 & H2 & H3 & H4 & H5) & H6).
  cbn in H1, H2, H3, H4, H5.
  intros [= <- <- <-]. split; [exact H3|].
  destruct e1; [|discriminate..].
  split; [reflexivity|]. split; [exact H2|].
  split; [exists done; split; [auto|exact H4]|].
  now rewrite H4.
Qed.


End LoadMapsFacts.



(** Instance of X18: the tile of the only polygon is in [MAP_DIR]. *)
Lemma read_kml_and_load_maps_never_downloads_witness :
  @nil (string * unit) = [] /\
  Completed = Completed /\
  @nil map_entry = default [] None /\
  (exists done,
     Forall2 (fun kml l =>
                SampleLoad.placemarks (path_join "annot" kml) = Success (Success <$> l))
       (filter (fun file => endswith file ".kml" = true) SampleLoad.annot_files) done /\
     [SampleLoad.near_point] = concat done) /\
  Forall (fun coords =>
            exists lat long name,
              tile_of Standin.cos Standin.tan Standin.log 1 17 coords
              = Returned (lat, long, name) /\
              (name +:+ ".jpg")%string ∈ [(snd SampleLoad.tile +:+ ".jpg")%string])
    [SampleLoad.near_point].
Proof.
  refine (read_kml_and_load_maps_never_downloads Standin.cos Standin.tan Standin.log
            SampleLoad.placemarks unit SampleLoad.staticmap 1 "annot" "maps" 17 640
            None SampleLoad.annot_files [(snd SampleLoad.tile +:+ ".jpg")%string]
            Completed [] (Some ([], [SampleLoad.near_point])) _).
  vm_compute. reflexivity.
Defined.




(** ** Downloading the maps *)

Lemma KML_to_mask_has_no_key :
  KML_to_mask_globals !! "GOOGLE_MAPS_API_KEY"%string = None.
Proof. vm_compute. reflexivity. Qed.

Section DownloadFacts.

Variable bytes : Type.
Variable requests_get : list arg -> value -> option bytes.
Variable image : Type.
Variable Image_open : bytes -> attempt image.

Lemma download_recs_unbound (SAVE_DIR : string) (obj2map : list (list arg))
    (st st' : downloading image) (e : finish) :
  download_recs bytes requests_get image Image_open KML_to_mask_globals SAVE_DIR
    st obj2map = (st', e) ->
  st' = st /\
  match e with
  | Finished =>
      Forall (fun rec =>
                exists i long lat zoom size hsh,
                  rec = [i; long; lat; zoom; size; ArgStr hsh] /\
                  (hsh +:+ ".jpg")%string ∈ names st) obj2map
  | Aborted _ => True
  end.
Proof.
  revert st'. induction obj2map as [|rec obj2map IH]; intros st'; cbn [download_recs].
  - intros [= <- <-]. split; [reflexivity|constructor].
  - destruct (download_rec bytes requests_get image Image_open KML_to_mask_globals
                SAVE_DIR st rec) as [st1 e1] eqn:E.
    assert (H : st1 = st /\
                (e1 = Finished ->
                 exists i long lat zoom size hsh,
                   rec = [i; long; lat; zoom; size; ArgStr hsh] /\
                   (hsh +:+ ".jpg")%string ∈ names st)).
    { unfold download_rec in E. rewrite KML_to_mask_has_no_key in E.
      destruct rec as [|i [|long [|lat [|zoom [|size [|hsh [|? ?]]]]]]];
        try (injection E as <- <-; split; [reflexivity|discriminate]).
      destruct hsh as [x|z|hsh|];
        try (injection E as <- <-; split; [reflexivity|discriminate]).
      destruct (bool_decide _) eqn:B; injection E as <- <-;
        (split; [reflexivity|]); [|discriminate].
      apply bool_decide_eq_true_1 in B. intros _. eauto 10. }
    destruct H as [-> H]. destruct e1.
    + intros H2. destruct (IH _ H2) as [-> H3]. split; [reflexivity|].
      destruct e; [|exact I]. constructor; auto.
    + intros [= <- <-]. split; [reflexivity|exact I].
Qed.

(** X20.  With the globals of the module that defines it,
    [download_google_maps_by_center] downloads nothing: it sends no
    request and saves no image; it ends normally only when every record
    has six fields, the last one a string, and its map is already in
    [SAVE_DIR], and the first record whose map is missing ends it with a
    [NameError] for [GOOGLE_MAPS_API_KEY]. *)
Theorem download_google_maps_by_center_unbound_key (SAVE_DIR : string)
    (save_dir : list string) (obj2map : list (list arg)) :
  let '(st, e) :=
    download_google_maps_by_center bytes requests_get image Image_open
      KML_to_mask_globals SAVE_DIR save_dir obj2map in
  requested st = [] /\ downloaded st = [] /\
  (e = Finished ->
   Forall (fun rec =>
             exists i long lat zoom size hsh,
               rec = [i; long; lat; zoom; size; ArgStr hsh] /\
               (hsh +:+ ".jpg")%string ∈ save_dir) obj2map) /\
  (forall i long lat zoom size hsh rest,
     obj2map = [i; long; lat; zoom; size; ArgStr hsh] :: rest ->
     (hsh +:+ ".jpg")%string ∉ save_dir ->
     e = Aborted (Builtin (NameError "GOOGLE_MAPS_API_KEY"))).
Proof.
  unfold download_google_maps_by_center.
  destruct (download_recs _ _ _ _ _ _ _ _) as [st e] eqn:E.
  destruct (download_recs_unbound _ _ _ _ _ E) as [-> H]. cbn.
  repeat split.
  - intros ->. exact H.
  - intros i long lat zoom size hsh rest -> Hn.
    cbn [download_recs download_rec] in E.
    rewrite bool_decide_eq_false_2 in E by exact Hn.
    rewrite KML_to_mask_has_no_key in E. now injection E as <-.
Qed.

Lemma download_rec_once (G : gmap string value) (SAVE_DIR : string)
    (st st' : downloading image) (rec : list arg) (e : finish) :
  download_rec bytes requests_get image Image_open G SAVE_DIR st rec = (st', e) ->
  exists new,
    requested st' = requested st ++ new /\
    Forall (fun name => name ∉ names st) new /\
    NoDup new /\
    (e = Finished -> names st' = names st ++ new) /\
    names st `prefix_of` names st'.
Proof.
  unfold download_rec.
  assert (Hsame : forall st1 e1, (st, e1) = (st1, e) ->
            st1 = st' -> exists new,
              requested st' = requested st ++ new /\
              Forall (fun name => name ∉ names st) new /\
              NoDup new /\
              (e = Finished -> names st' = names st ++ new) /\
              names st `prefix_of` names st').
  { intros st1 e1 [= <- <-] <-. exists []. rewrite !app_nil_r.
    repeat split; try constructor. reflexivity. }
  destruct rec as [|i [|long [|lat [|zoom [|size [|hsh [|? ?]]]]]]];
    try (intros E; injection E as <- <-; eapply Hsame; reflexivity).
  destruct hsh as [x|z|hsh|];
    try (intros E; injection E as <- <-; eapply Hsame; reflexivity).
  destruct (bool_decide _) eqn:B;
    [intros E; injection E as <- <-; eapply Hsame; reflexivity|].
  apply bool_decide_eq_false_1 in B.
  destruct (G !! "GOOGLE_MAPS_API_KEY"%string) as [key|];
    [|intros E; injection E as <- <-; eapply Hsame; reflexivity].
  destruct (requests_get _ _) as [content|].
  2:{ intros [= <- <-]. exists [(hsh +:+ ".jpg")%string]. cbn.
      repeat split; try discriminate.
      - constructor; [exact B|constructor].
      - apply NoDup_singleton.
      - reflexivity. }
  destruct (Image_open content) as [rgb_im|ex]; intros [= <- <-];
    exists [(hsh +:+ ".jpg")%string]; cbn; repeat split; try discriminate;
    try (constructor; [exact B|constructor]); try apply NoDup_singleton;
    try reflexivity.
  now apply prefix_app_r.
Qed.

Lemma download_recs_once (G : gmap string value) (SAVE_DIR : string)
    (obj2map : list (list arg)) (st st' : downloading image) (e : finish) :
  download_recs bytes requests_get image Image_open G SAVE_DIR st obj2map = (st', e) ->
  exists new,
    requested st' = requested st ++ new /\
    Forall (fun name => name ∉ names st) new /\
    NoDup new.
Proof.
  revert st. induction obj2map as [|rec obj2map IH]; intros st; cbn [download_recs].
  - intros [= <- <-]. exists []. rewrite app_nil_r. repeat split; constructor.
  - destruct (download_rec bytes requests_get image Image_open G SAVE_DIR st rec)
      as [st1 e1] eqn:E.
    destruct (download_rec_once _ _ _ _ _ _ E) as (new1 & R1 & F1 & N1 & A1 & P1).
    destruct e1.
    + intros H. destruct (IH _ H) as (new2 & R2 & F2 & N2).
      exists (new1 ++ new2). rewrite R2, R1, app_assoc. split; [reflexivity|].
      rewrite (A1 eq_refl) in F2.
      split.
      * apply Forall_app. split; [exact F1|].
        eapply Forall_impl; [exact F2|]. cbn. intros name Hn Hin. apply Hn.
        apply elem_of_app. now left.
      * apply NoDup_app. split; [exact N1|]. split; [|exact N2].
        intros name H1 H2. rewrite Forall_forall in F2. apply (F2 name H2).
        apply elem_of_app. now right.
    + intros [= <- <-]. exists new1. auto.
Qed.

(** X21.  Whatever the globals and the service, a run of
    [download_google_maps_by_center] requests no map twice, and none whose
    file is in [SAVE_DIR] when the run starts. *)
Theorem download_google_maps_by_center_once (G : gmap string value)
    (SAVE_DIR : string) (save_dir : list string) (obj2map : list (list arg)) :
  let st := fst (download_google_maps_by_center bytes requests_get image Image_open
                   G SAVE_DIR save_dir obj2map) in
  NoDup (requested st) /\
  Forall (fun name => name ∉ save_dir) (requested st).
Proof.
  unfold download_google_maps_by_center.
  destruct (download_recs _ _ _ _ _ _ _ _) as [st e] eqn:E.
  destruct (download_recs_once _ _ _ _ _ _ E) as (new & R & F & N).
  cbn in *. rewrite R. auto.
Qed.

End DownloadFacts.


(** ** Reading the placemarks *)

Lemma app_String (c : ascii) (a b : string) :
  (String c a +:+ b)%string = String c (a +:+ b).
Proof. reflexivity. Qed.

Lemma app_Empty (b : string) : (EmptyString +:+ b)%string = b.
Proof. reflexivity. Qed.

Lemma append_assoc (a b c : string) :
  ((a +:+ b) +:+ c)%string = (a +:+ (b +:+ c))%string.
Proof.
  induction a as [|x a IH]; [reflexivity|].
  rewrite !app_String. now rewrite IH.
Qed.

Lemma free_of_app (c : ascii) (a b : string) :
  free_of c (a +:+ b) <-> free_of c a /\ free_of c b.
Proof.
  induction a as [|x a IH]; [rewrite app_Empty; cbn; tauto|].
  rewrite app_String. cbn. rewrite IH. tauto.
Qed.

Lemma prefix_empty (b : string) : String.prefix EmptyString b = true.
Proof. now destruct b. Qed.

(** Splitting at a character. *)
Lemma split_char_app (c : ascii) (a b : string) :
  free_of c a ->
  str_split (String c EmptyString) (a +:+ String c b)
  = a :: str_split (String c EmptyString) b.
Proof.
  unfold str_split. induction a as [|x a IH]; intros H.
  - rewrite app_Empty. cbn [split_at String.prefix String.length].
    destruct (ascii_dec c c) as [_|N]; [|contradiction].
    now rewrite prefix_empty.
  - destruct H as [Hx Ha]. rewrite app_String. cbn [split_at String.prefix].
    destruct (ascii_dec c x) as [->|_]; [contradiction|].
    now rewrite (IH Ha).
Qed.

Lemma split_char_free (c : ascii) (a : string) :
  free_of c a -> str_split (String c EmptyString) a = [a].
Proof.
  unfold str_split. induction a as [|x a IH]; intros H; [reflexivity|].
  destruct H as [Hx Ha]. cbn [split_at String.prefix].
  destruct (ascii_dec c x) as [->|_]; [contradiction|].
  now rewrite (IH Ha).
Qed.

Lemma split_tabs7_free (a : string) :
  free_of tab a -> str_split tabs7 a = [a].
Proof.
  unfold str_split. induction a as [|x a IH]; intros H; [reflexivity|].
  destruct H as [Hx Ha]. cbn [split_at].
  assert (P : String.prefix tabs7 (String x a) = false).
  { change tabs7 with (String tab (string_of_list_ascii (replicate 6 tab))).
    cbn [String.prefix]. destruct (ascii_dec tab x) as [E|_]; [congruence|].
    reflexivity. }
  rewrite P. now rewrite (IH Ha).
Qed.

Lemma split_tabs7_indent (a : string) :
  str_split tabs7 (tabs7 +:+ a) = EmptyString :: str_split tabs7 a.
Proof. unfold str_split. destruct a; reflexivity. Qed.

Lemma split_tuples (tuples : list (string * string * string)) :
  Forall (fun '(x, y, z) => plain x /\ plain y /\ plain z) tuples ->
  str_split " " (tuples_text tuples)
  = ((fun '(x, y, z) => (x +:+ "," +:+ y +:+ "," +:+ z)%string) <$> tuples)
    ++ [EmptyString].
Proof.
  induction 1 as [|[[x y] z] tuples (Hx & Hy & Hz) _ IH]; [reflexivity|].
  cbn [tuples_text foldr fmap list_fmap app].
  change (foldr _ EmptyString tuples) with (tuples_text tuples).
  replace (x +:+ "," +:+ y +:+ "," +:+ z +:+ " " +:+ tuples_text tuples)%string
    with ((x +:+ "," +:+ y +:+ "," +:+ z) +:+ String " " (tuples_text tuples))%string.
  2:{ rewrite !append_assoc. reflexivity. }
  rewrite split_char_app; [now rewrite IH|].
  destruct Hx as (_ & Hx & _), Hy as (_ & Hy & _), Hz as (_ & Hz & _).
  rewrite !free_of_app. cbn. repeat split; auto; discriminate.
Qed.

Lemma tuples_text_free (c : ascii) (tuples : list (string * string * string)) :
  c <> ","%char -> c <> " "%char ->
  Forall (fun '(x, y, z) => free_of c x /\ free_of c y /\ free_of c z) tuples ->
  free_of c (tuples_text tuples).
Proof.
  intros H1 H2. induction 1 as [|[[x y] z] tuples (Hx & Hy & Hz) _ IH]; [exact I|].
  cbn [tuples_text foldr]. change (foldr _ EmptyString tuples) with (tuples_text tuples).
  rewrite !free_of_app. cbn. repeat split; auto.
Qed.

Lemma split_tuple (x y z : string) :
  plain x -> plain y -> plain z ->
  take 2 (str_split "," (x +:+ "," +:+ y +:+ "," +:+ z)) = [x; y].
Proof.
  intros (Hx & _) (Hy & _) (Hz & _).
  change (x +:+ "," +:+ y +:+ "," +:+ z)%string
    with (x +:+ String "," (y +:+ String "," z))%string.
  rewrite (split_char_app "," x _ Hx), (split_char_app "," y _ Hy).
  reflexivity.
Qed.

Lemma filter_nonempty (l : list string) :
  Forall (fun s => s <> EmptyString) l ->
  filter (fun s => s <> EmptyString) (l ++ [EmptyString]) = l.
Proof.
  induction 1 as [|s l Hs _ IH]; [reflexivity|].
  cbn [app]. rewrite filter_cons_True by exact Hs. now rewrite IH.
Qed.

Lemma token_nonempty (x r : string) : (x +:+ String "," r)%string <> EmptyString.
Proof. destruct x; discriminate. Qed.

Section KmlFacts.

Variable float : string -> option Q.

(** X22.  [get_polygon_coords] reads the text that Google Earth writes.
    For a placemark whose element at [polygon[2][1][0][0]] holds a line
    break, seven tabs, tuples [long,lat,alt] each followed by a blank, a
    line break and six tabs, it returns one row per tuple, made of the
    floats of [long] and of [lat]; the altitude is dropped, and a string
    that is not a float raises [ValueError]. *)
Theorem get_polygon_coords_reads_tuples (polygon e2 e3 e4 e5 : ET.element)
    (tuples : list (string * string * string)) :
  ET.children polygon !! 2%nat = Some e2 ->
  ET.children e2 !! 1%nat = Some e3 ->
  ET.children e3 !! 0%nat = Some e4 ->
  ET.children e4 !! 0%nat = Some e5 ->
  ET.text e5 = Some (coordinates_text tuples) ->
  Forall (fun '(x, y, z) => plain x /\ plain y /\ plain z) tuples ->
  get_polygon_coords float polygon
  = mapM (mapM (fun s => match float s with
                         | Some q => Success q
                         | None => Failure (Builtin ValueError)
                         end))
      ((fun '(x, y, z) => [x; y]) <$> tuples).
Proof.
  intros H2 H3 H4 H5 Ht Hp. unfold get_polygon_coords, item.
  rewrite H2. cbn [mbind attempt_bind]. rewrite H3. cbn [mbind attempt_bind].
  rewrite H4. cbn [mbind attempt_bind]. rewrite H5. cbn [mbind attempt_bind].
  rewrite Ht. cbn [mbind attempt_bind].
  assert (Fn : free_of "010" (tuples_text tuples)).
  { apply tuples_text_free; [discriminate..|].
    eapply Forall_impl; [exact Hp|]. intros [[x y] z] (Hx & Hy & Hz).
    unfold plain in *. tauto. }
  assert (Ft : free_of tab (tuples_text tuples)).
  { apply tuples_text_free; [discriminate..|].
    eapply Forall_impl; [exact Hp|]. intros [[x y] z] (Hx & Hy & Hz).
    unfold plain in *. tauto. }
  assert (L : str_split newline (coordinates_text tuples)
              = [EmptyString; (tabs7 +:+ tuples_text tuples)%string;
                 string_of_list_ascii (replicate 6 tab)]).
  { unfold coordinates_text, newline.
    change (String "010" "" +:+ ?r)%string with (EmptyString +:+ String "010" r)%string.
    rewrite (split_char_app "010" EmptyString _ I).
    replace (tabs7 +:+ tuples_text tuples +:+ String "010" ""
             +:+ string_of_list_ascii (replicate 6 tab))%string
      with ((tabs7 +:+ tuples_text tuples)
            +:+ String "010" (string_of_list_ascii (replicate 6 tab)))%string
      by (rewrite append_assoc; reflexivity).
    rewrite split_char_app.
    - rewrite split_char_free; [reflexivity|]. cbn. repeat split; discriminate.
    - apply free_of_app. split; [|exact Fn]. cbn. repeat split; discriminate. }
  rewrite L. cbn [lookup list_lookup mbind attempt_bind].
  rewrite split_tabs7_indent, (split_tabs7_free _ Ft).
  cbn [lookup list_lookup mbind attempt_bind].
  rewrite (split_tuples tuples Hp).
  rewrite filter_nonempty.
  2:{ apply Forall_fmap. eapply Forall_impl; [exact Hp|].
      intros [[x y] z] _. cbn. apply token_nonempty. }
  rewrite <- list_fmap_compose.
  assert (R : (fun coord => take 2 (str_split "," coord))
              ∘ (fun '(x, y, z) => (x +:+ "," +:+ y +:+ "," +:+ z)%string)
              <$> tuples
              = (fun '(x, y, z) => [x; y]) <$> tuples).
  { apply Forall_fmap_ext_1. eapply Forall_impl; [exact Hp|].
    intros [[x y] z] (Hx & Hy & Hz). cbn. now apply split_tuple. }
  rewrite R. unfold astype_float.
  assert (E : forallb (fun row : list string =>
                Nat.eqb (length row)
                  (length (hd [] ((fun '(x, y, z) => [x; y]) <$> tuples))))
                ((fun '(x, y, z) => [x; y]) <$> tuples) = true).
  { destruct tuples as [|[[x0 y0] z0] tuples']; [reflexivity|].
    apply forallb_forall. intros row Hin. apply (proj2 (list_elem_of_In _ _)) in Hin.
    apply list_elem_of_fmap in Hin as ([[x y] z] & -> & _). reflexivity. }
  now rewrite E.
Qed.

End KmlFacts.



(** Instance of X22: a triangle with whole coordinates. *)
Lemma get_polygon_coords_reads_tuples_witness :
  get_polygon_coords SampleKml.whole_number SampleKml.placemark
  = mapM (mapM (fun s => match SampleKml.whole_number s with
                         | Some q => Success q
                         | None => Failure (Builtin ValueError)
                         end))
      ((fun '(x, y, z) => [x; y]) <$> SampleKml.triangle).
Proof.
  refine (get_polygon_coords_reads_tuples SampleKml.whole_number SampleKml.placemark
            _ _ _ _ SampleKml.triangle _ _ _ _ _ _);
    try reflexivity.
  repeat constructor; discriminate.
Defined.



Lemma iter_tag (t : string) (e : ET.element) :
  Forall (fun x => ET.tag x = t) (ET.iter t e).
Proof.
  induction e as [t0 x0 cs IH] using element_rect'.
  cbn [ET.iter]. apply Forall_app. split.
  - cbn [ET.tag]. destruct (String.eqb t0 t) eqn:E; [|constructor].
    apply String.eqb_eq in E. constructor; [exact E|constructor].
  - induction IH as [|c cs Hc _ IHcs]; [constructor|].
    apply Forall_app. split; assumption.
Qed.

(** X23.  [get_placemarks] returns as [Placemarks] elements with the tag
    [Placemark] only, and as [Polygons] those of them, in the same order,
    whose first child with the tag [Polygon] has children of its own: a
    placemark without such a child, or with an empty one, is left out. *)
Theorem get_placemarks_polygons (parse : string -> attempt ET.element)
    (path_to_kml : string) (Placemarks Polygons : list ET.element) :
  get_placemarks parse path_to_kml = Success (Placemarks, Polygons) ->
  Forall (fun e => ET.tag e = (kml_prefix +:+ "Placemark")%string) Placemarks /\
  Polygons `sublist_of` Placemarks /\
  forall e,
    e ∈ Polygons <->
    e ∈ Placemarks /\
    exists p, ET.find (kml_prefix +:+ "Polygon") e = Some p /\ ET.children p <> [].
Proof.
  unfold get_placemarks.
  destruct (parse path_to_kml) as [root|ex]; cbn [mbind attempt_bind]; [|discriminate].
  destruct (item (ET.children root) 0) as [root0|ex]; cbn [mbind attempt_bind];
    [|discriminate].
  intros [= <- <-]. split; [apply iter_tag|]. split; [apply sublist_filter|].
  intros e. rewrite list_elem_of_filter. split.
  - intros [Ht Hin]. split; [exact Hin|].
    unfold ET.truthy in Ht. destruct (ET.find _ e) as [p|]; [|discriminate].
    exists p. split; [reflexivity|]. intros Hp. rewrite Hp in Ht. discriminate.
  - intros [Hin (p & Hf & Hp)]. split; [|exact Hin].
    unfold ET.truthy. rewrite Hf. destruct (ET.children p); [contradiction|reflexivity].
Qed.

(** Instance of X23: of a placemark with a polygon, one with a point and
    one with an empty polygon, the first is returned. *)
Lemma get_placemarks_polygons_witness :
  Forall (fun e => ET.tag e = (kml_prefix +:+ "Placemark")%string)
    [SampleKml.placemark; SampleKml.point; SampleKml.hollow] /\
  [SampleKml.placemark] `sublist_of`
    [SampleKml.placemark; SampleKml.point; SampleKml.hollow] /\
  forall e,
    e ∈ [SampleKml.placemark] <->
    e ∈ [SampleKml.placemark; SampleKml.point; SampleKml.hollow] /\
    exists p, ET.find (kml_prefix +:+ "Polygon") e = Some p /\ ET.children p <> [].
Proof.
  apply (get_placemarks_polygons SampleKml.parse "annot/hills.kml").
  vm_compute. reflexivity.
Defined.


(** ** The scales of the projection *)

(** X24.  One zoom level more halves the grid unit, 512 pixels of
    longitude span one grid unit at every longitude, and the span of an
    image in latitude is its span in longitude times the cosine of the
    latitude. *)
Theorem projection_scales cos (zoom size : Z) (lat long : Q) :
  calc_c_zoom (zoom + 1) == calc_c_zoom zoom / 2 /\
  long_degrees_per_img zoom long 512 == calc_c_zoom zoom /\
  lat_degrees_per_img cos zoom lat size
  == long_degrees_per_img zoom long size * cos (angle_lat lat).
Proof.
  split; [|split].
  - unfold calc_c_zoom.
    replace (zoom + 1 - 1)%Z with (zoom - 1 + 1)%Z by lia.
    rewrite Qpower_plus by discriminate.
    assert (H : 0 < 2 ^ (zoom - 1)%Z) by (apply Qpower_0_lt; reflexivity).
    change (2 ^ 1) with 2. field. lra.
  - unfold long_degrees_per_img, long_degrees_per_pixel.
    change (inject_Z 512) with (512 # 1). field.
  - unfold lat_degrees_per_img, long_degrees_per_img, lat_degrees_per_pixel,
      long_degrees_per_pixel. ring.
Qed.

(** ** The category of a mask *)

Lemma contains_app (sub a b : string) :
  contains sub (a +:+ sub +:+ b) = true.
Proof.
  induction a as [|x a IH].
  - rewrite app_Empty.
    assert (P : String.prefix sub (sub +:+ b) = true).
    { induction sub as [|c sub IHs]; [apply prefix_empty|].
      rewrite app_String. cbn [String.prefix].
      destruct (ascii_dec c c); [exact IHs|contradiction]. }
    destruct (sub +:+ b)%string; cbn [contains]; now rewrite P.
  - rewrite app_String. cbn [contains]. rewrite IH. apply orb_true_r.
Qed.

(** X25.  Every mask file that [make_masks] writes is annotated as a
    hill: for a path that holds the name [name_hill_n.png] of such a file,
    the category lookup of [main.py] returns the [id] 1, whereas a path
    without [hill] in it raises [IndexError]. *)
Theorem class_id_of_mask (dir name rest : string) (n : Z) :
  class_id (dir +:+ png_name name n +:+ rest) = Ok 1%Z /\
  forall annotation_filename,
    contains "hill" annotation_filename = false ->
    class_id annotation_filename = Raise IndexError.
Proof.
  split.
  - unfold class_id, CATEGORIES, png_name.
    assert (E : (dir +:+ (name +:+ "_hill_" +:+ format_int n +:+ ".png") +:+ rest)%string
                = ((dir +:+ name +:+ "_") +:+ "hill"
                   +:+ ("_" +:+ format_int n +:+ ".png" +:+ rest))%string).
    { rewrite !append_assoc. reflexivity. }
    rewrite E. rewrite filter_cons_True; [reflexivity|].
    cbn [fst snd]. apply contains_app.
  - intros f Hf. unfold class_id, CATEGORIES.
    rewrite filter_cons_False; [reflexivity|]. cbn [fst snd]. now rewrite Hf.
Qed.
